(** * Paradrop update engine: chutes, plan graph, execution and abort

    A shallow embedding of the Python sources
      - daemon/paradrop/core/chute/chute.py        (class Chute)
      - paradrop/backend/exc/executionplan.py      (executePlans, abortPlans)
      - src/paradrop/lib/plan/router.py            (generatePlans)
      - src/paradrop/lib/config/power.py           (reboot, shutdown)
    together with the properties the specification states about them. *)

From Stdlib Require Import ZArith String Ascii.
From stdpp Require Import gmap strings list pretty relations.
From Equations Require Import Equations.
From Equations.Prop Require Import Logic.

Local Open Scope string_scope.

(** ** Python values shared by all modules *)

(** The exceptions the modelled code can raise.  [NameError] is what Python
    raises when a name is bound neither locally nor in the module, [ValueError]
    is raised by [min] on an empty iterable, [KeyError] by a failed dictionary
    subscript, [ServiceNotFound] by [Chute.get_service], and [Exception] is the generic class used by [raise Exception(..)]
    and by faulting plan operations. *)
Inductive PyExc : Type :=
| NameError (name : string)
| ValueError (msg : string)
| KeyError (key : string)
| ServiceNotFound (name : string)
| Exception (msg : string).

(** A Python call either returns a value or leaves by an exception. *)
Inductive Result (A : Type) : Type :=
| Return (a : A)
| Raise (e : PyExc).
Arguments Return {A} a.
Arguments Raise {A} e.

(** Truth value of a Python [str]: only the empty string is falsy. *)
Definition truthy_str (s : string) : bool :=
  match s with
  | EmptyString => false
  | String _ _ => true
  end.

(** [min(iterable)] on strings: the running minimum is replaced only by a
    strictly smaller item; an empty iterable raises [ValueError]. *)
Fixpoint py_min_from (cur : string) (l : list string) : string :=
  match l with
  | [] => cur
  | x :: rest => py_min_from (if String.ltb x cur then x else cur) rest
  end.

Definition py_min (l : list string) : Result string :=
  match l with
  | [] => Raise (ValueError "min() arg is an empty sequence")
  | x :: rest => Return (py_min_from x rest)
  end.

(** ** chute.py *)
Module Chute.
Section Chute.

(** The Service class and the values stored in [config] and [_cache] live
    outside chute.py; the Chute only stores and returns them. *)
Variable Service : Type.
Variable Value : Type.

Definition STATE_RUNNING : string := "running".

Record Chute : Type := mkChute {
  name : option string;
  description : option string;
  owner : option string;
  state : option string;
  version : option string;
  config : gmap string Value;
  services : gmap string Service;
  _cache : gmap string Value
}.

(** [Chute.__init__]: [services] and [_cache] start empty, a missing
    [config] becomes the empty dictionary. *)
Definition init (name description owner : option string) (state : option string)
    (version : option string) (config : option (gmap string Value)) : Chute :=
  {| name := name; description := description; owner := owner;
     state := state; version := version;
     config := default ∅ config;
     services := ∅; _cache := ∅ |}.

Definition isRunning (self : Chute) : bool :=
  bool_decide (state self = Some STATE_RUNNING).

(** [if (not self.name or len(self.name) == 0): return False] / [return True].
    [None] and the empty string are both falsy, so [len] is only reached
    on a non-empty string. *)
Definition isValid (self : Chute) : bool :=
  match name self with
  | None => false
  | Some n =>
      if negb (truthy_str n) || (String.length n =? 0)%nat then false else true
  end.

(** [self.services[service.name] = service]; the caller supplies the name
    read from the service. *)
Definition add_service (self : Chute) (service_name : string) (service : Service) : Chute :=
  {| name := name self; description := description self; owner := owner self;
     state := state self; version := version self; config := config self;
     services := <[service_name := service]> (services self);
     _cache := _cache self |}.

(** Iterating over a dictionary yields its keys. *)
Definition keys (d : gmap string Service) : list string := (map_to_list d).*1.

(** [services[k]]: a failed subscript raises [KeyError]. *)
Definition subscript (d : gmap string Service) (k : string) : Result Service :=
  match d !! k with
  | Some s => Return s
  | None => Raise (KeyError k)
  end.

Definition get_default_service (self : Chute) : Result Service :=
  if bool_decide (is_Some (services self !! "main")) then
    subscript (services self) "main"
  else
    match py_min (keys (services self)) with
    | Raise e => Raise e
    | Return n => subscript (services self) n
    end.

Definition get_service (self : Chute) (n : string) : Result Service :=
  if bool_decide (is_Some (services self !! n)) then subscript (services self) n
  else Raise (ServiceNotFound n).

(** [self._cache.get(key, None)] *)
Definition getCache (self : Chute) (key : string) : option Value :=
  _cache self !! key.

Definition getCacheContents (self : Chute) : gmap string Value := _cache self.

Definition with_cache (self : Chute) (c : gmap string Value) : Chute :=
  {| name := name self; description := description self; owner := owner self;
     state := state self; version := version self; config := config self;
     services := services self; _cache := c |}.

(** [self._cache[key] = value] *)
Definition setCache (self : Chute) (key : string) (value : Value) : Chute :=
  with_cache self (<[key := value]> (_cache self)).

(** [self._cache.update(other)]: the entries of [other] replace those of
    the cache under the same key. *)
Definition updateCache (self : Chute) (other : gmap string Value) : Chute :=
  with_cache self (other ∪ _cache self).

Definition getConfiguration (self : Chute) : gmap string Value := config self.

(** [getattr(obj, attr_name, None)] on the four attributes that
    [inherit_attributes] visits. *)
Definition getattr (self : Chute) (attr_name : string) : option string :=
  if String.eqb attr_name "name" then name self
  else if String.eqb attr_name "description" then description self
  else if String.eqb attr_name "state" then state self
  else if String.eqb attr_name "version" then version self
  else None.

(** [setattr(self, attr_name, value)] on the same attributes. *)
Definition setattr (self : Chute) (attr_name : string) (value : string) : Chute :=
  if String.eqb attr_name "name" then
    {| name := Some value; description := description self; owner := owner self;
       state := state self; version := version self; config := config self;
       services := services self; _cache := _cache self |}
  else if String.eqb attr_name "description" then
    {| name := name self; description := Some value; owner := owner self;
       state := state self; version := version self; config := config self;
       services := services self; _cache := _cache self |}
  else if String.eqb attr_name "state" then
    {| name := name self; description := description self; owner := owner self;
       state := Some value; version := version self; config := config self;
       services := services self; _cache := _cache self |}
  else if String.eqb attr_name "version" then
    {| name := name self; description := description self; owner := owner self;
       state := state self; version := Some value; config := config self;
       services := services self; _cache := _cache self |}
  else self.

(** The body of the [for attr_name in ...] loop of [inherit_attributes];
    the loop variables are the [changes] dictionary and [self]. *)
Definition inherit_step (other : Chute) (acc : gmap string string * Chute)
    (attr_name : string) : gmap string string * Chute :=
  let '(changes, self) := acc in
  match getattr self attr_name with
  | None =>
      match getattr other attr_name with
      | Some other_value =>
          (<[attr_name := other_value]> changes, setattr self attr_name other_value)
      | None => acc
      end
  | Some _ => acc
  end.

(** [inherit_attributes] returns the [changes] dictionary and leaves [self]
    updated. *)
Definition inherit_attributes (self other : Chute) : gmap string string * Chute :=
  foldl (inherit_step other) (∅, self) ["name"; "description"; "state"; "version"].

(** [getattr(self, "owner", None)] *)
Definition get_owner (self : Chute) : option string := owner self.

(** [self.services.values()] *)
Definition get_services (self : Chute) : list Service := (map_to_list (services self)).*2.

End Chute.

Arguments mkChute {Service Value}.
Arguments name {Service Value}.
Arguments description {Service Value}.
Arguments owner {Service Value}.
Arguments state {Service Value}.
Arguments version {Service Value}.
Arguments config {Service Value}.
Arguments services {Service Value}.
Arguments _cache {Service Value}.
Arguments init {Service Value}.
Arguments isRunning {Service Value}.
Arguments isValid {Service Value}.
Arguments add_service {Service Value}.
Arguments keys {Service}.
Arguments subscript {Service}.
Arguments get_default_service {Service Value}.
Arguments get_service {Service Value}.
Arguments getCache {Service Value}.
Arguments getCacheContents {Service Value}.
Arguments with_cache {Service Value}.
Arguments setCache {Service Value}.
Arguments updateCache {Service Value}.
Arguments getConfiguration {Service Value}.
Arguments getattr {Service Value}.
Arguments setattr {Service Value}.
Arguments inherit_step {Service Value}.
Arguments inherit_attributes {Service Value}.
Arguments get_owner {Service Value}.
Arguments get_services {Service Value}.

End Chute.

(** ** The plan graph (plangraph.py) *)
Module PlanGraph.

(** Plan operations are Python function objects, compared by identity;
    the embedding names each function object by its qualified name. *)
Definition OpRef : Type := string.

Section PlanGraph.

(** The owning chute reference and the values passed to an operation are
    opaque to the plan graph. *)
Variable Owner : Type.
Variable Arg : Type.

(** Modelled from the spec: the plan-graph entry of plangraph.py, a tuple of
    stage, owner, operation and arguments. *)
Record Entry : Type := mkEntry {
  stage : Z;
  owner : Owner;
  operation : OpRef;
  arguments : list Arg
}.

(** Modelled from the spec: the plan graph of plangraph.py, the pending
    operations, the record of operations already executed (in execution
    order) and the skip set; it belongs to one owner. *)
Record PlanGraph : Type := mkPlanGraph {
  graph_owner : Owner;
  pending : list Entry;
  alreadyRun : list Entry;
  skipSet : gset OpRef
}.

Definition with_pending (pg : PlanGraph) (l : list Entry) : PlanGraph :=
  {| graph_owner := graph_owner pg; pending := l;
     alreadyRun := alreadyRun pg; skipSet := skipSet pg |}.

(** Modelled from the spec: [addPlans(stage, operation, arguments...)] of
    plangraph.py appends one entry tagged with [stage]. *)
Definition addPlans (pg : PlanGraph) (st : Z) (op : OpRef) (args : list Arg) : PlanGraph :=
  with_pending pg (pending pg ++ [mkEntry st (graph_owner pg) op args]).

(** Stable insertion: [e] goes behind every entry whose stage is not larger. *)
Fixpoint insert_by_stage (e : Entry) (l : list Entry) : list Entry :=
  match l with
  | [] => [e]
  | x :: rest =>
      if (stage x <=? stage e)%Z then x :: insert_by_stage e rest
      else e :: x :: rest
  end.

(** Modelled from the spec: [sort()] of plangraph.py stably reorders the
    pending entries by ascending stage. *)
Definition sort (pg : PlanGraph) : PlanGraph :=
  with_pending pg (foldl (fun acc e => insert_by_stage e acc) [] (pending pg)).

(** The leftmost entry of lowest stage, with the list that remains. *)
Fixpoint extractMin (l : list Entry) : option (Entry * list Entry) :=
  match l with
  | [] => None
  | e :: rest =>
      match extractMin rest with
      | None => Some (e, [])
      | Some (m, rest') =>
          if (stage e <=? stage m)%Z then Some (e, rest)
          else Some (m, e :: rest')
      end
  end.

Lemma extractMin_length l e rest :
  extractMin l = Some (e, rest) -> length l = S (length rest).
Proof.
  revert e rest. induction l as [|x l IH]; intros e rest; simpl; [discriminate|].
  destruct (extractMin l) as [[m r']|] eqn:Hm.
  - destruct (stage x <=? stage m)%Z; intros [= <- <-]; [done|].
    simpl. by rewrite (IH m r').
  - intros [= <- <-]. destruct l as [|y l]; [done|].
    simpl in Hm. destruct (extractMin l) as [[? ?]|]; [|done].
    by destruct (stage y <=? stage _)%Z.
Qed.

(** Modelled from the spec: the search of [getNextTodo()] in plangraph.py.
    The lowest-stage pending entry is removed; when its operation is in the
    skip set it is discarded and the search continues. *)
Equations? nextTodo (skip : gset OpRef) (l : list Entry)
    : option Entry * list Entry by wf (length l) lt :=
  nextTodo skip l with inspect (extractMin l) => {
    | exist _ None _ => (None, l)
    | exist _ (Some (e, rest)) Hmin =>
        if bool_decide (operation e ∈ skip) then nextTodo skip rest
        else (Some e, rest) }.
Proof. rewrite (extractMin_length _ _ _ Hmin). lia. Qed.

Lemma nextTodo_length (skip : gset OpRef) (l : list Entry) e rest :
  nextTodo skip l = (Some e, rest) -> length rest < length l.
Proof.
  funelim (nextTodo skip l); [|discriminate].
  pose proof (extractMin_length _ _ _ Hmin) as Hlen.
  destruct (bool_decide (operation e ∈ skip)).
  - intros Heq. specialize (H _ _ Heq). lia.
  - intros [= <- <-]. lia.
Qed.

(** Modelled from the spec: [getNextTodo()] of plangraph.py.  The entry
    that is returned for execution is appended to the already-run record;
    "none" is returned when no eligible entry remains.  The record is
    written when the entry is handed out, so it also holds an entry whose
    call then raises. *)
Definition getNextTodo (pg : PlanGraph) : option Entry * PlanGraph :=
  match nextTodo (skipSet pg) (pending pg) with
  | (Some e, rest) =>
      (Some e, {| graph_owner := graph_owner pg; pending := rest;
                  alreadyRun := alreadyRun pg ++ [e]; skipSet := skipSet pg |})
  | (None, rest) => (None, with_pending pg rest)
  end.

(** The last element of a list with the list before it. *)
Fixpoint unsnoc (l : list Entry) : option (list Entry * Entry) :=
  match l with
  | [] => None
  | x :: rest =>
      match unsnoc rest with
      | None => Some ([], x)
      | Some (front, z) => Some (x :: front, z)
      end
  end.

(** Modelled from the spec: [getNextAbort()] of plangraph.py pops the
    already-run record last-run-first and returns "none" once it is empty. *)
Definition getNextAbort (pg : PlanGraph) : option Entry * PlanGraph :=
  match unsnoc (alreadyRun pg) with
  | None => (None, pg)
  | Some (front, e) =>
      (Some e, {| graph_owner := graph_owner pg; pending := pending pg;
                  alreadyRun := front; skipSet := skipSet pg |})
  end.

(** Modelled from the spec: [registerSkip(operationRef)] of plangraph.py
    adds the reference to the skip set. *)
Definition registerSkip (pg : PlanGraph) (f : OpRef) : PlanGraph :=
  {| graph_owner := graph_owner pg; pending := pending pg;
     alreadyRun := alreadyRun pg; skipSet := {[ f ]} ∪ skipSet pg |}.

End PlanGraph.

Arguments mkEntry {Owner Arg}.
Arguments stage {Owner Arg}.
Arguments owner {Owner Arg}.
Arguments operation {Owner Arg}.
Arguments arguments {Owner Arg}.
Arguments mkPlanGraph {Owner Arg}.
Arguments graph_owner {Owner Arg}.
Arguments pending {Owner Arg}.
Arguments alreadyRun {Owner Arg}.
Arguments skipSet {Owner Arg}.
Arguments with_pending {Owner Arg}.
Arguments addPlans {Owner Arg}.
Arguments sort {Owner Arg}.
Arguments extractMin {Owner Arg}.
Arguments nextTodo {Owner Arg}.
Arguments getNextTodo {Owner Arg}.
Arguments unsnoc {Owner Arg}.
Arguments getNextAbort {Owner Arg}.
Arguments registerSkip {Owner Arg}.

End PlanGraph.

(** ** The update object *)
Module UpdateObject.
Section UpdateObject.

Variable Owner : Type.
Variable Arg : Type.

(** The dictionary [{'exception': str(e), 'traceback': traceback.format_exc()}]
    that the engine appends to [update.responses]. *)
Record Response : Type := mkResponse {
  exception : string;
  traceback : string
}.

(** Modelled from the spec: the update class is defined outside the files at
    hand; the engine, the generator and the power operations read
    [updateType], [plans] and [responses] and call [progress]. *)
Record Update : Type := mkUpdate {
  updateType : string;
  plans : PlanGraph.PlanGraph Owner Arg;
  responses : list Response;
  progressLog : list string
}.

Definition with_plans (u : Update) (pg : PlanGraph.PlanGraph Owner Arg) : Update :=
  {| updateType := updateType u; plans := pg;
     responses := responses u; progressLog := progressLog u |}.

(** [update.responses.append(r)] *)
Definition append_response (u : Update) (r : Response) : Update :=
  {| updateType := updateType u; plans := plans u;
     responses := responses u ++ [r]; progressLog := progressLog u |}.

(** Modelled from the spec: [update.progress(message)] of the update class
    reports a human-readable progress message on the update. *)
Definition progress (u : Update) (message : string) : Update :=
  {| updateType := updateType u; plans := plans u;
     responses := responses u; progressLog := progressLog u ++ [message] |}.

End UpdateObject.

Arguments mkResponse : clear implicits.
Arguments mkUpdate {Owner Arg}.
Arguments updateType {Owner Arg}.
Arguments plans {Owner Arg}.
Arguments responses {Owner Arg}.
Arguments progressLog {Owner Arg}.
Arguments with_plans {Owner Arg}.
Arguments append_response {Owner Arg}.
Arguments progress {Owner Arg}.

End UpdateObject.

(** ** executionplan.py *)
Module ExecutionPlan.
Import PlanGraph UpdateObject.

(** What an exception caught by [except Exception as e] carries for the
    engine: [str(e)] and [traceback.format_exc()]. *)
Record Fault : Type := mkFault {
  fault_str : string;
  fault_trace : string
}.

(** The values a plan operation returns: nothing, one function to skip or
    a list of functions to skip. *)
Inductive PyValue : Type :=
| PyNone
| PyFunc (f : OpRef)
| PyList (fs : list OpRef).

(** Result of the guarded call [func(args)]. *)
Inductive Outcome : Type :=
| Returned (v : PyValue)
| Raised (f : Fault).

(** [if(skipme)]: [None] and the empty list are falsy. *)
Definition truthy (v : PyValue) : bool :=
  match v with
  | PyNone => false
  | PyFunc _ => true
  | PyList [] => false
  | PyList (_ :: _) => true
  end.

(** [if (not isinstance(skipme, list)): skipme = [skipme]] *)
Definition as_list (v : PyValue) : list OpRef :=
  match v with
  | PyNone => []
  | PyFunc f => [f]
  | PyList fs => fs
  end.

Definition response_of (f : Fault) : Response :=
  mkResponse (fault_str f) (fault_trace f).

Section ExecutionPlan.

Variable Owner : Type.
Variable Arg : Type.

(** The infrastructure the operations act on (containers, network
    configuration, files). *)
Variable World : Type.

(** The plan operations are external collaborators: [call f args w] is the
    effect of [f(args)] on the infrastructure together with what the call
    returns or raises.  What an operation writes on the update object it is
    handed (a progress message, for one) is not followed: the engine model
    keeps the engine's own writes to the update, its plan graph and its
    responses. *)
Variable call : OpRef -> list Arg -> World -> Outcome * World.

Record State : Type := mkState {
  update : Update Owner Arg;
  world : World
}.

(** One pass through the body of a [while(True)] loop: either control comes
    back to the loop head with new loop variables, or the function is left. *)
Inductive Step (L : Type) : Type :=
| Continue (l : L)
| Done (r : Result bool) (s : State).
Arguments Continue {L} l.
Arguments Done {L} r s.

(** [aggregatePlans] *)
Definition aggregatePlans (s : State) : State :=
  mkState (with_plans (update s) (sort (plans (update s)))) (world s).

(** A plan generator of [update.updateModuleList]: [mod.generatePlans(update)]
    may change the update and either returns a value, of which the engine
    reads only the truth value, or raises. *)
Definition PlanModule : Type := Update Owner Arg -> Result bool * Update Owner Arg.

(** [generatePlans]: the modules are asked in order; the first one whose
    answer is truthy ends the loop with [return True]; after the last one the
    function falls off its end and returns [None], kept here as the truth
    value [false].  There is no [try]: an exception of a module leaves
    [generatePlans]. *)
Fixpoint generatePlans (updateModuleList : list PlanModule) (update : Update Owner Arg)
    : Result bool * Update Owner Arg :=
  match updateModuleList with
  | [] => (Return false, update)
  | module :: rest =>
      match module update with
      | (Return true, u) => (Return true, u)
      | (Return false, u) => generatePlans rest u
      | (Raise e, u) => (Raise e, u)
      end
  end.

(** [for skip in skipme: update.plans.registerSkip(skip)] *)
Definition registerSkips (pg : PlanGraph Owner Arg) (fs : list OpRef) : PlanGraph Owner Arg :=
  foldl registerSkip pg fs.

(** The body of the loop of [executePlans]. *)
Definition executeBody (s : State) : Step State :=
  let '(p, pg) := getNextTodo (plans (update s)) in
  let u := with_plans (update s) pg in
  match p with
  | None => Done (Return false) (mkState u (world s))
  | Some e =>
      match call (operation e) (arguments e) (world s) with
      | (Raised e2, w) =>
          Done (Return true) (mkState (append_response u (response_of e2)) w)
      | (Returned skipme, w) =>
          if truthy skipme then
            Continue (mkState (with_plans u (registerSkips pg (as_list skipme))) w)
          else Continue (mkState u w)
      end
  end.

(** A pass of the execute loop that comes back to the loop head: the
    operation taken by [getNextTodo] returned. *)
Definition iterates (s s' : State) : Prop := executeBody s = Continue s'.

(** The body of the loop of [abortPlans]; the loop variable [sameError]
    travels with the state.  In the handler, [responseMessages] is bound
    neither in the function nor in the module, so evaluating
    [responseMessages.append] raises [NameError]; raised inside the
    [except] clause, it leaves [abortPlans], and the statements behind it
    ([out.fatal], [sameError = True]) are not reached. *)
Definition abortBody (l : bool * State) : Step (bool * State) :=
  let '(sameError, s) := l in
  let '(p, pg) := getNextAbort (plans (update s)) in
  let u := with_plans (update s) pg in
  match p with
  | None => Done (Return false) (mkState u (world s))
  | Some e =>
      match call (operation e) (arguments e) (world s) with
      | (Returned _, w) => Continue (false, mkState u w)
      | (Raised _, w) =>
          if sameError then Done (Return true) (mkState u w)
          else Done (Raise (NameError "responseMessages")) (mkState u w)
      end
  end.

Definition todoSize (s : State) : nat := length (pending (plans (update s))).
Definition abortSize (l : bool * State) : nat := length (alreadyRun (plans (update l.2))).

Lemma unsnoc_length (l front : list (Entry Owner Arg)) e :
  unsnoc l = Some (front, e) -> length l = S (length front).
Proof.
  revert front e. induction l as [|x l IH]; intros front e; simpl; [discriminate|].
  destruct (unsnoc l) as [[f z]|] eqn:Hu.
  - intros [= <- <-]. simpl. by rewrite (IH f z).
  - intros [= <- <-]. destruct l as [|y l]; [done|].
    simpl in Hu. by destruct (unsnoc l) as [[? ?]|].
Qed.

Lemma registerSkips_pending pg fs :
  pending (registerSkips pg fs) = pending pg.
Proof. revert pg. induction fs as [|f fs IH]; intros pg; [done|]. simpl. by rewrite IH. Qed.

Lemma executeBody_decreases s s' :
  executeBody s = Continue s' -> todoSize s' < todoSize s.
Proof.
  unfold executeBody, getNextTodo, todoSize.
  destruct (nextTodo _ _) as [[e|] rest] eqn:Hnext; [|discriminate].
  apply nextTodo_length in Hnext.
  destruct (call _ _ _) as [[v|f] w]; [|discriminate].
  destruct (truthy v); intros [= <-]; simpl; [by rewrite registerSkips_pending|done].
Qed.

Lemma abortBody_decreases l l' :
  abortBody l = Continue l' -> abortSize l' < abortSize l.
Proof.
  destruct l as [b s]. unfold abortBody, getNextAbort, abortSize.
  destruct (unsnoc _) as [[front e]|] eqn:Hu; [|discriminate].
  apply unsnoc_length in Hu.
  destruct (call _ _ _) as [[v|f] w].
  - intros [= <-]. simpl in *. lia.
  - by destruct b.
Qed.

(** The [while(True)] loop of [executePlans]; every pass that comes back to
    the loop head has removed an entry from the pending list. *)
Equations? executeLoop (s : State) : Result bool * State by wf (todoSize s) lt :=
  executeLoop s with inspect (executeBody s) => {
    | exist _ (Continue s') Hbody => executeLoop s'
    | exist _ (Done r s') Hdone => (r, s') }.
Proof. by apply executeBody_decreases. Qed.

Definition executePlans (s : State) : Result bool * State := executeLoop s.

(** The [while(True)] loop of [abortPlans]; every pass that comes back to
    the loop head has popped an entry of the already-run record. *)
Equations? abortLoop (l : bool * State) : Result bool * State by wf (abortSize l) lt :=
  abortLoop l with inspect (abortBody l) => {
    | exist _ (Continue l') Hbody => abortLoop l'
    | exist _ (Done r s') Hdone => (r, s') }.
Proof. by apply abortBody_decreases. Qed.

(** [abortPlans] enters its loop with [sameError = False]. *)
Definition abortPlans (s : State) : Result bool * State := abortLoop (false, s).

End ExecutionPlan.

Arguments mkState {Owner Arg World}.
Arguments update {Owner Arg World}.
Arguments world {Owner Arg World}.
Arguments Continue {Owner Arg World L}.
Arguments Done {Owner Arg World L}.
Arguments aggregatePlans {Owner Arg World}.
Arguments generatePlans {Owner Arg}.
Arguments registerSkips {Owner Arg}.
Arguments executeBody {Owner Arg World}.
Arguments iterates {Owner Arg World}.
Arguments abortBody {Owner Arg World}.
Arguments executeLoop {Owner Arg World}.
Arguments executePlans {Owner Arg World}.
Arguments abortLoop {Owner Arg World}.
Arguments abortPlans {Owner Arg World}.

End ExecutionPlan.

(** ** power.py *)
Module Power.
Import UpdateObject.
Section Power.

Variable Owner : Type.
Variable Arg : Type.
Variable World : Type.

(** [subprocess.call(cmd)] runs the command on the host and returns its
    exit status. *)
Variable subprocess_call : list string -> World -> Z * World.

Definition reboot (update : Update Owner Arg) (w : World)
    : Result unit * Update Owner Arg * World :=
  let cmd := ["shutdown"; "-r"; "+1"] in
  let '(result, w') := subprocess_call cmd w in
  if (result =? 0)%Z then
    (Return tt, progress update "Rebooting in 60 seconds.", w')
  else
    (Raise (Exception ("shutdown command failed, returned " +:+ pretty result)),
     update, w').

Definition shutdown (update : Update Owner Arg) (w : World)
    : Result unit * Update Owner Arg * World :=
  let cmd := ["shutdown"; "-h"; "+1"] in
  let '(result, w') := subprocess_call cmd w in
  if (result =? 0)%Z then
    (Return tt, progress update "Halting in 60 seconds.", w')
  else
    (Raise (Exception ("shutdown command failed, returned " +:+ pretty result)),
     update, w').

End Power.

Arguments reboot {Owner Arg World}.
Arguments shutdown {Owner Arg World}.

End Power.

(** ** router.py *)
Module Router.
Import PlanGraph UpdateObject.
Section Router.

Variable Owner : Type.
Variable Arg : Type.

(** The stage constants [plangraph.STATE_CALL_STOP] and
    [plangraph.STATE_SAVE_CHUTE] are defined in plangraph.py. *)
Variable STATE_CALL_STOP : Z.
Variable STATE_SAVE_CHUTE : Z.

(** [update.plans.addPlans(stage, (func, ))]: the tuple holds the function
    and no further arguments. *)
Definition add (u : Update Owner Arg) (st : Z) (func : OpRef) : Update Owner Arg :=
  with_plans u (addPlans (plans u) st func []).

(** In the [shutdown] branch the receiver of the call is written [uphane],
    a name bound nowhere in the module: evaluating it raises [NameError]
    before [addPlans] is reached.  A generator that falls off its end returns
    [None]. *)
Definition generatePlans (update : Update Owner Arg) : Result unit * Update Owner Arg :=
  if String.eqb (updateType update) "factoryreset" then
    let u1 := add update STATE_CALL_STOP "dockerapi.removeAllContainers" in
    let u2 := add u1 STATE_SAVE_CHUTE "state.removeAllChutes" in
    (Return tt, u2)
  else if String.eqb (updateType update) "reboot" then
    (Return tt, add update STATE_CALL_STOP "power.reboot")
  else if String.eqb (updateType update) "shutdown" then
    (Raise (NameError "uphane"), update)
  else
    (Return tt, update).

(** [router.generatePlans] seen as an entry of [update.updateModuleList]:
    it returns [None], which is falsy. *)
Definition as_module (update : Update Owner Arg) : Result bool * Update Owner Arg :=
  match generatePlans update with
  | (Return _, u) => (Return false, u)
  | (Raise e, u) => (Raise e, u)
  end.

End Router.

Arguments add {Owner Arg}.
Arguments generatePlans {Owner Arg}.
Arguments as_module {Owner Arg}.

End Router.

(** * A concrete router

    Chutes are named by strings, operations take strings, and the
    infrastructure is the list of the operations called so far.  The
    operation ["net.setConfig"] returns the function ["net.reload"] to skip,
    ["fw.setRules"] returns a list of two functions, the operations
    ["docker.start"] and ["docker.stop"] raise, every other operation
    returns [None]. *)
Module Demo.
Import PlanGraph UpdateObject ExecutionPlan.

Definition World : Type := list string.

Definition outcome (f : OpRef) : Outcome :=
  if String.eqb f "net.setConfig" then Returned (PyFunc "net.reload")
  else if String.eqb f "fw.setRules" then Returned (PyList ["fw.reload"; "dhcp.reload"])
  else if String.eqb f "docker.start" then
    Raised (mkFault "container failed to start" "Traceback: docker.start")
  else if String.eqb f "docker.stop" then
    Raised (mkFault "no such container" "Traceback: docker.stop")
  else Returned PyNone.

Definition call (f : OpRef) (args : list string) (w : World) : Outcome * World :=
  (outcome f, (w ++ [f])%list).

Definition entry (st : Z) (f : OpRef) : Entry string string := mkEntry st "chute" f [].

Definition state_of (upd_type : string) (todo done : list (Entry string string))
    : State string string World :=
  mkState (mkUpdate upd_type (mkPlanGraph "chute" todo done ∅) [] []) [].

(** A plan whose first operation asks to skip a later one and whose last
    operation raises. *)
Definition install_state : State string string World :=
  state_of "install"
    [entry 10 "net.setConfig"; entry 20 "net.reload"; entry 30 "docker.start";
     entry 40 "state.saveChute"] [].

(** The state at the loop head after the first pass over [install_state]:
    ["net.setConfig"] has run and ["net.reload"] is registered to skip. *)
Definition after_setConfig : State string string World :=
  mkState
    (mkUpdate "install"
       (mkPlanGraph "chute"
          [entry 20 "net.reload"; entry 30 "docker.start"; entry 40 "state.saveChute"]
          [entry 10 "net.setConfig"]
          {[ "net.reload" ]})
       [] [])
    ["net.setConfig"].

(** Abort states: the already-run record in execution order.  In the first
    the newest compensating call returns and the one before it raises; in
    the second the two newest compensating calls raise; in the third the
    only compensating call raises. *)
Definition abort_one_fault : State string string World :=
  state_of "install" []
    [entry 10 "net.setConfig"; entry 30 "docker.start"; entry 40 "state.saveChute"].

Definition abort_two_faults : State string string World :=
  state_of "install" []
    [entry 10 "net.setConfig"; entry 20 "docker.stop"; entry 30 "docker.start"].

Definition abort_fault_last : State string string World :=
  state_of "install" [entry 40 "state.saveChute"] [entry 30 "docker.start"].

Definition shutdown_update : Update string string :=
  mkUpdate "shutdown" (mkPlanGraph "router" [] [] ∅) [] [].

Definition reboot_update : Update string string :=
  mkUpdate "reboot" (mkPlanGraph "router" [] [] ∅) [] [].

(** A plan whose first operation returns a list of two functions to skip,
    and the state at the loop head after that first pass. *)
Definition firewall_state : State string string World :=
  state_of "install"
    [entry 10 "fw.setRules"; entry 20 "fw.reload"; entry 25 "dhcp.reload";
     entry 40 "state.saveChute"] [].

Definition after_setRules : State string string World :=
  mkState
    (mkUpdate "install"
       (mkPlanGraph "chute"
          [entry 20 "fw.reload"; entry 25 "dhcp.reload"; entry 40 "state.saveChute"]
          [entry 10 "fw.setRules"]
          (list_to_set ["fw.reload"; "dhcp.reload"]))
       [] [])
    ["fw.setRules"].

(** A plan and an already-run record none of whose operations raises. *)
Definition quiet_state : State string string World :=
  state_of "install"
    [entry 10 "net.setConfig"; entry 20 "net.reload"; entry 40 "state.saveChute"] [].

Definition quiet_abort_state : State string string World :=
  state_of "install" [] [entry 10 "net.setConfig"; entry 40 "state.saveChute"].

Definition factoryreset_update : Update string string :=
  mkUpdate "factoryreset" (mkPlanGraph "router" [] [] ∅) [] [].

(** The host answers the restart command with status 0 and the halt command
    with status 1. *)
Definition subprocess_call (cmd : list string) (w : World) : Z * World :=
  (if bool_decide (cmd = ["shutdown"; "-r"; "+1"]) then 0%Z else 1%Z,
   (w ++ cmd)%list).

(** The two chutes of the specification, with services [{"b", "a"}] and
    [{"main", "a"}]; a service is represented by a number. *)
Definition chute_with (svcs : gmap string nat) : Chute.Chute nat unit :=
  Chute.mkChute (Some "demo") None None (Some "running") None ∅ svcs ∅.

Definition chute_b_a : Chute.Chute nat unit :=
  Chute.add_service (Chute.add_service (chute_with ∅) "b" 1) "a" 2.

Definition chute_main_a : Chute.Chute nat unit :=
  Chute.add_service (Chute.add_service (chute_with ∅) "main" 1) "a" 2.

End Demo.

(** * Properties *)

(** ** The lexicographic order on strings *)

Lemma ascii_compare_refl (a : ascii) : Ascii.compare a a = Eq.
Proof. unfold Ascii.compare. apply N.compare_refl. Qed.

Lemma string_compare_lt_trans (a b c : string) :
  String.compare a b = Lt -> String.compare b c = Lt -> String.compare a c = Lt.
Proof.
  revert b c. induction a as [|x a IH]; intros [|y b] [|z c]; simpl; try done.
  unfold Ascii.compare.
  destruct (N.compare_spec (N_of_ascii x) (N_of_ascii y)) as [Hxy|Hxy|Hxy];
    destruct (N.compare_spec (N_of_ascii y) (N_of_ascii z)) as [Hyz|Hyz|Hyz];
    try done; intros H1 H2.
  - rewrite Hxy, Hyz, N.compare_refl. eauto.
  - rewrite Hxy. by apply N.compare_lt_iff in Hyz as ->.
  - rewrite <- Hyz. by apply N.compare_lt_iff in Hxy as ->.
  - assert (N_of_ascii x < N_of_ascii z)%N as Hxz by lia.
    by apply N.compare_lt_iff in Hxz as ->.
Qed.

Lemma string_leb_refl (a : string) : String.leb a a = true.
Proof.
  unfold String.leb. induction a as [|x a IH]; simpl; [done|].
  by rewrite ascii_compare_refl.
Qed.

Lemma string_leb_trans (a b c : string) :
  String.leb a b = true -> String.leb b c = true -> String.leb a c = true.
Proof.
  unfold String.leb.
  destruct (String.compare a b) eqn:Hab; [| |done];
    destruct (String.compare b c) eqn:Hbc; try done; intros _ _.
  - apply String.compare_eq_iff in Hab, Hbc. subst.
    by destruct (String.compare c c) eqn:Hcc;
      [| |pose proof (string_leb_refl c) as Hr; unfold String.leb in Hr; rewrite Hcc in Hr].
  - apply String.compare_eq_iff in Hab. subst. by rewrite Hbc.
  - apply String.compare_eq_iff in Hbc. subst. by rewrite Hab.
  - by rewrite (string_compare_lt_trans a b c).
Qed.

Lemma string_ltb_leb (a b : string) : String.ltb a b = true -> String.leb a b = true.
Proof. unfold String.ltb, String.leb. by destruct (String.compare a b). Qed.

Lemma string_ltb_false_leb (a b : string) : String.ltb a b = false -> String.leb b a = true.
Proof.
  unfold String.ltb, String.leb. rewrite (String.compare_antisym b a).
  by destruct (String.compare a b).
Qed.

(** ** Python's [min] *)

Lemma py_min_from_elem (cur : string) (l : list string) :
  py_min_from cur l ∈ cur :: l.
Proof.
  revert cur. induction l as [|x l IH]; intros cur; simpl; [set_solver|].
  pose proof (IH (if String.ltb x cur then x else cur)) as Hin.
  destruct (String.ltb x cur);
    apply elem_of_cons in Hin as [Hin|Hin]; rewrite ?Hin; set_solver.
Qed.

Lemma py_min_from_le_cur (cur : string) (l : list string) :
  String.leb (py_min_from cur l) cur = true.
Proof.
  revert cur. induction l as [|x l IH]; intros cur; simpl; [apply string_leb_refl|].
  destruct (String.ltb x cur) eqn:Hlt; [|apply IH].
  eapply string_leb_trans; [apply IH|by apply string_ltb_leb].
Qed.

Lemma py_min_from_lower (cur : string) (l : list string) (k : string) :
  k ∈ cur :: l -> String.leb (py_min_from cur l) k = true.
Proof.
  revert cur. induction l as [|x l IH]; intros cur Hk; simpl.
  - apply list_elem_of_singleton in Hk as ->. apply string_leb_refl.
  - apply elem_of_cons in Hk as [->|Hk].
    + eapply string_leb_trans; [apply py_min_from_le_cur|].
      destruct (String.ltb x cur) eqn:Hlt; [by apply string_ltb_leb|apply string_leb_refl].
    + apply elem_of_cons in Hk as [->|Hk].
      * eapply string_leb_trans; [apply py_min_from_le_cur|].
        destruct (String.ltb x cur) eqn:Hlt;
          [apply string_leb_refl|by apply string_ltb_false_leb].
      * apply IH. set_solver.
Qed.

(** ** Chute *)
Section ChuteProperties.

Variable Service : Type.
Variable Value : Type.

Implicit Types c : Chute.Chute Service Value.

Lemma keys_elem (d : gmap string Service) (k : string) :
  k ∈ Chute.keys d <-> is_Some (d !! k).
Proof.
  unfold Chute.keys. rewrite list_elem_of_fmap. split.
  - intros [[k' s] [-> Hin]]. apply elem_of_map_to_list in Hin. by exists s.
  - intros [s Hs]. exists (k, s). split; [done|]. by apply elem_of_map_to_list.
Qed.

Lemma keys_nil (d : gmap string Service) : Chute.keys d = [] <-> d = ∅.
Proof.
  unfold Chute.keys. rewrite <- map_to_list_empty_iff.
  split; [apply fmap_nil_inv|by intros ->].
Qed.

(** C9: [isValid] returns [True] exactly when [name] is a non-empty string;
    a Chute whose name is [None] or the empty string is not valid. *)
Theorem isValid_iff_nonempty_name c :
  (Chute.isValid c = true <-> exists n : string, Chute.name c = Some n /\ n <> "") /\
  (Chute.name c = None -> Chute.isValid c = false) /\
  (Chute.name c = Some "" -> Chute.isValid c = false).
Proof.
  unfold Chute.isValid. repeat split.
  - destruct (Chute.name c) as [[|a n]|]; simpl; try discriminate.
    intros _. by eexists.
  - intros (n & -> & Hn). by destruct n.
  - by intros ->.
  - by intros ->.
Qed.

(** C8: on a Chute with at least one service, [get_default_service] returns
    the service stored under ["main"] when there is one, and otherwise the
    service stored under the lexicographically smallest service name. *)
Theorem get_default_service_main_or_least c :
  Chute.services c <> ∅ ->
  (forall s, Chute.services c !! "main" = Some s -> Chute.get_default_service c = Return s) /\
  (Chute.services c !! "main" = None ->
   exists (k : string) (s : Service),
     Chute.services c !! k = Some s /\
     Chute.get_default_service c = Return s /\
     forall k', is_Some (Chute.services c !! k') -> String.leb k k' = true).
Proof.
  intros Hne. unfold Chute.get_default_service, Chute.subscript. split.
  - intros s Hs. rewrite Hs. by rewrite bool_decide_eq_true_2.
  - intros Hmain. rewrite Hmain.
    rewrite bool_decide_eq_false_2 by (by intros [? ?]).
    destruct (Chute.keys (Chute.services c)) as [|x rest] eqn:Hkeys.
    { by apply keys_nil in Hkeys. }
    simpl.
    assert (is_Some (Chute.services c !! py_min_from x rest)) as [s Hs].
    { apply keys_elem. rewrite Hkeys. apply py_min_from_elem. }
    exists (py_min_from x rest), s. rewrite Hs. split; [done|]. split; [done|].
    intros k' Hk'. apply py_min_from_lower. rewrite <- Hkeys. by apply keys_elem.
Qed.

(** C10: on a Chute without services, [get_default_service] raises the
    [ValueError] of [min] on an empty sequence and returns no value. *)
Theorem get_default_service_no_services c :
  Chute.services c = ∅ ->
  Chute.get_default_service c = Raise (ValueError "min() arg is an empty sequence") /\
  forall s, Chute.get_default_service c <> Return s.
Proof.
  intros Hempty.
  assert (Chute.get_default_service c = Raise (ValueError "min() arg is an empty sequence")) as Hr.
  { unfold Chute.get_default_service. rewrite Hempty, lookup_empty.
    rewrite bool_decide_eq_false_2 by (by intros [? ?]).
    by rewrite (proj2 (keys_nil ∅) eq_refl). }
  split; [done|]. intros s. by rewrite Hr.
Qed.

End ChuteProperties.

Example get_default_service_b_a :
  Chute.get_default_service Demo.chute_b_a = Return 2.
Proof. vm_compute. reflexivity. Qed.

Example get_default_service_main_a :
  Chute.get_default_service Demo.chute_main_a = Return 1.
Proof. vm_compute. reflexivity. Qed.

Lemma get_default_service_main_or_least_witness :
  exists (k : string) (s : nat),
    Chute.services Demo.chute_b_a !! k = Some s /\
    Chute.get_default_service Demo.chute_b_a = Return s /\
    forall k', is_Some (Chute.services Demo.chute_b_a !! k') -> String.leb k k' = true.
Proof.
  apply (get_default_service_main_or_least nat unit Demo.chute_b_a).
  - intros H. apply (f_equal (lookup "a")) in H. vm_compute in H. discriminate.
  - vm_compute. reflexivity.
Defined.

Lemma get_default_service_no_services_witness :
  Chute.get_default_service (Demo.chute_with ∅)
    = Raise (ValueError "min() arg is an empty sequence") /\
  forall s, Chute.get_default_service (Demo.chute_with ∅) <> Return s.
Proof.
  apply (get_default_service_no_services nat unit (Demo.chute_with ∅)). reflexivity.
Defined.

(** ** The plan graph *)
Section PlanGraphProperties.
Import PlanGraph.

Variable Owner : Type.
Variable Arg : Type.

Implicit Types pg : PlanGraph Owner Arg.
Implicit Types e : Entry Owner Arg.
Implicit Types l : list (Entry Owner Arg).

Lemma nextTodo_not_skipped (skip : gset OpRef) l e rest :
  nextTodo skip l = (Some e, rest) -> operation e ∉ skip.
Proof.
  funelim (nextTodo skip l); [|discriminate].
  destruct (bool_decide (operation e ∈ skip)) eqn:Hskip.
  - intros Heq. by apply (H _ _ Heq).
  - intros [= <- <-]. by apply bool_decide_eq_false in Hskip.
Qed.

Lemma getNextTodo_some pg e pg' :
  getNextTodo pg = (Some e, pg') ->
  (operation e ∉ skipSet pg) /\
  alreadyRun pg' = (alreadyRun pg ++ [e])%list /\
  skipSet pg' = skipSet pg /\
  length (pending pg') < length (pending pg).
Proof.
  unfold getNextTodo.
  destruct (nextTodo (skipSet pg) (pending pg)) as [[e'|] rest] eqn:Hnext; [|discriminate].
  intros [= <- <-]. simpl.
  split; [by eapply nextTodo_not_skipped|].
  repeat split. by eapply nextTodo_length.
Qed.

Lemma getNextTodo_none pg pg' :
  getNextTodo pg = (None, pg') ->
  alreadyRun pg' = alreadyRun pg /\ skipSet pg' = skipSet pg.
Proof.
  unfold getNextTodo.
  destruct (nextTodo (skipSet pg) (pending pg)) as [[e'|] rest]; [discriminate|].
  by intros [= <-].
Qed.

Lemma addPlans_pending pg st op args :
  pending (addPlans pg st op args)
    = (pending pg ++ [mkEntry st (graph_owner pg) op args])%list.
Proof. done. Qed.

End PlanGraphProperties.
(** ** The execution engine *)
Section EngineProperties.
Import PlanGraph UpdateObject ExecutionPlan.

Variable Owner : Type.
Variable Arg : Type.
Variable World : Type.
Variable call : OpRef -> list Arg -> World -> Outcome * World.

Implicit Types s : State Owner Arg World.
Implicit Types pg : PlanGraph Owner Arg.
Implicit Types e : Entry Owner Arg.

(** The loops unfold as the [while(True)] they embed. *)
Lemma executeLoop_unfold s :
  executeLoop call s =
  match executeBody call s with
  | Continue s' => executeLoop call s'
  | Done r s' => (r, s')
  end.
Proof. funelim (executeLoop call s); [by rewrite Hbody|by rewrite Hdone]. Qed.

Lemma abortLoop_unfold (l : bool * State Owner Arg World) :
  abortLoop call l =
  match abortBody call l with
  | Continue l' => abortLoop call l'
  | Done r s' => (r, s')
  end.
Proof. funelim (abortLoop call l); [by rewrite Hbody|by rewrite Hdone]. Qed.

Lemma executePlans_iterates s s' :
  rtc (iterates call) s s' -> executePlans call s = executePlans call s'.
Proof.
  induction 1 as [|s s1 s2 Hstep _ IH]; [done|].
  rewrite <- IH. unfold executePlans. rewrite (executeLoop_unfold s).
  unfold iterates in Hstep. by rewrite Hstep.
Qed.

(** What one pass of the execute loop does, case by case. *)
Lemma executeBody_none s pg :
  getNextTodo (plans (update s)) = (None, pg) ->
  executeBody call s = Done (Return false) (mkState (with_plans (update s) pg) (world s)).
Proof. unfold executeBody. by intros ->. Qed.

Lemma executeBody_raised s e pg f w :
  getNextTodo (plans (update s)) = (Some e, pg) ->
  call (operation e) (arguments e) (world s) = (Raised f, w) ->
  executeBody call s =
    Done (Return true)
      (mkState (append_response (with_plans (update s) pg) (response_of f)) w).
Proof. unfold executeBody. by intros -> ->. Qed.

Lemma executeBody_returned s e pg v w :
  getNextTodo (plans (update s)) = (Some e, pg) ->
  call (operation e) (arguments e) (world s) = (Returned v, w) ->
  executeBody call s =
    Continue (mkState (with_plans (update s)
                         (if truthy v then registerSkips pg (as_list v) else pg)) w).
Proof. unfold executeBody. intros -> ->. by destruct (truthy v). Qed.

Lemma iterates_inv s s' :
  iterates call s s' ->
  exists e pg v w,
    getNextTodo (plans (update s)) = (Some e, pg) /\
    call (operation e) (arguments e) (world s) = (Returned v, w) /\
    s' = mkState (with_plans (update s)
                    (if truthy v then registerSkips pg (as_list v) else pg)) w.
Proof.
  unfold iterates. destruct (getNextTodo (plans (update s))) as [[e|] pg] eqn:Hnext.
  - destruct (call (operation e) (arguments e) (world s)) as [[v|f] w] eqn:Hcall.
    + rewrite (executeBody_returned _ _ _ _ _ Hnext Hcall). intros [= <-].
      by exists e, pg, v, w.
    + by rewrite (executeBody_raised _ _ _ _ _ Hnext Hcall).
  - by rewrite (executeBody_none _ _ Hnext).
Qed.

Lemma iterates_responses s s' :
  rtc (iterates call) s s' -> responses (update s') = responses (update s).
Proof.
  induction 1 as [|s s1 s2 Hstep _ IH]; [done|]. rewrite IH.
  apply iterates_inv in Hstep as (e & pg & v & w & _ & _ & ->). done.
Qed.

Lemma registerSkips_skipSet pg fs :
  skipSet (registerSkips pg fs) = list_to_set fs ∪ skipSet pg.
Proof.
  revert pg. induction fs as [|f fs IH]; intros pg; simpl.
  - symmetry. apply (left_id_L ∅ (∪)).
  - rewrite IH. simpl.
    by rewrite (assoc_L (∪)), (comm_L (∪) (list_to_set fs)).
Qed.

Lemma registerSkips_alreadyRun pg fs :
  alreadyRun (registerSkips pg fs) = alreadyRun pg.
Proof. revert pg. induction fs as [|f fs IH]; intros pg; [done|]. simpl. by rewrite IH. Qed.

Lemma iterates_skipSet s s' :
  rtc (iterates call) s s' -> skipSet (plans (update s)) ⊆ skipSet (plans (update s')).
Proof.
  induction 1 as [|s s1 s2 Hstep _ IH]; [done|]. etrans; [|exact IH].
  apply iterates_inv in Hstep as (e & pg & v & w & Hnext & _ & ->).
  apply getNextTodo_some in Hnext as (_ & _ & Hskip & _). simpl.
  destruct (truthy v); [rewrite registerSkips_skipSet|]; rewrite Hskip;
    [apply union_subseteq_r|done].
Qed.

(** Entries recorded by the rest of a run never carry an operation that is
    in the skip set when that rest starts. *)
Lemma executeLoop_alreadyRun s r sf :
  executeLoop call s = (r, sf) ->
  exists new,
    alreadyRun (plans (update sf)) = (alreadyRun (plans (update s)) ++ new)%list /\
    forall e, e ∈ new -> operation e ∉ skipSet (plans (update s)).
Proof.
  revert r sf. funelim (executeLoop call s); intros r0 sf Hrun.
  - destruct (H _ _ Hrun) as (new & Hnew & Hall).
    destruct (iterates_inv _ _ Hbody) as (e & pg & v & w & Hnext & _ & Hs').
    apply getNextTodo_some in Hnext as (He & Hrec & Hskip & _).
    exists (e :: new). split.
    + rewrite Hnew, Hs'. simpl.
      destruct (truthy v); [rewrite registerSkips_alreadyRun|]; rewrite Hrec;
        by rewrite <- app_assoc.
    + intros e' [->|Hin]%elem_of_cons; [done|].
      intros Hmem. apply (Hall _ Hin). rewrite Hs'. simpl.
      destruct (truthy v); [rewrite registerSkips_skipSet|]; rewrite Hskip;
        [by apply elem_of_union_r|done].
  - injection Hrun as <- <-. pose proof Hdone as Hd.
    destruct (getNextTodo (plans (update s))) as [[e|] pg] eqn:Hnext.
    + destruct (call (operation e) (arguments e) (world s)) as [[v|f] w] eqn:Hcall.
      * by rewrite (executeBody_returned _ _ _ _ _ Hnext Hcall) in Hd.
      * rewrite (executeBody_raised _ _ _ _ _ Hnext Hcall) in Hd.
        injection Hd as <- <-. simpl.
        apply getNextTodo_some in Hnext as (He & Hrec & _).
        exists [e]. split; [done|]. by intros e' ->%list_elem_of_singleton.
    + rewrite (executeBody_none _ _ Hnext) in Hd. injection Hd as <- <-.
      apply getNextTodo_none in Hnext as [Hrec _].
      exists []. simpl. rewrite Hrec, app_nil_r. split; [done|].
      by intros e' ?%elem_of_nil.
Qed.

(** [executePlans] never leaves by an exception. *)
Lemma executePlans_returns s :
  exists b sf, executePlans call s = (Return b, sf).
Proof.
  unfold executePlans. funelim (executeLoop call s); [done|].
  pose proof Hdone as Hd.
  destruct (getNextTodo (plans (update s))) as [[e|] pg] eqn:Hnext.
  - destruct (call (operation e) (arguments e) (world s)) as [[v|f] w] eqn:Hcall.
    + by rewrite (executeBody_returned _ _ _ _ _ Hnext Hcall) in Hd.
    + rewrite (executeBody_raised _ _ _ _ _ Hnext Hcall) in Hd.
      injection Hd as <- <-. eauto.
  - rewrite (executeBody_none _ _ Hnext) in Hd. injection Hd as <- <-. eauto.
Qed.

(** C4: at whatever pass of the loop of [executePlans] the invoked operation
    raises, [executePlans] returns [True], [update.responses] has gained
    exactly one record, holding the message and the traceback of the fault,
    and the plan graph is as the faulting [getNextTodo] left it, so no
    further entry was taken or executed; when [getNextTodo] reports no
    entry, [executePlans] returns [False]. *)
Theorem executePlans_fault_stops_run s0 s :
  rtc (iterates call) s0 s ->
  (forall e pg f w,
     getNextTodo (plans (update s)) = (Some e, pg) ->
     call (operation e) (arguments e) (world s) = (Raised f, w) ->
     exists sf,
       executePlans call s0 = (Return true, sf) /\
       responses (update sf) =
         (responses (update s0) ++ [mkResponse (fault_str f) (fault_trace f)])%list /\
       plans (update sf) = pg /\
       world sf = w) /\
  (forall pg,
     getNextTodo (plans (update s)) = (None, pg) ->
     executePlans call s0 =
       (Return false, mkState (with_plans (update s) pg) (world s))).
Proof.
  intros Hrun. rewrite (executePlans_iterates _ _ Hrun).
  unfold executePlans. rewrite (executeLoop_unfold s). split.
  - intros e pg f w Hnext Hcall.
    rewrite (executeBody_raised _ _ _ _ _ Hnext Hcall).
    eexists. split; [done|]. simpl.
    by rewrite (iterates_responses _ _ Hrun).
  - intros pg Hnext. by rewrite (executeBody_none _ _ Hnext).
Qed.

(** Registering a list of references adds exactly these to the skip set and
    changes nothing else of the plan graph. *)
Lemma registerSkips_eq pg (fs : list OpRef) :
  registerSkips pg fs =
    mkPlanGraph (graph_owner pg) (pending pg) (alreadyRun pg)
      (list_to_set fs ∪ skipSet pg).
Proof.
  revert pg. induction fs as [|f fs IH]; intros pg.
  - destruct pg as [own pend ran skip]. simpl. f_equal.
    symmetry. apply (left_id_L ∅ (∪)).
  - simpl. rewrite IH. simpl. f_equal.
    by rewrite (assoc_L (∪)), (comm_L (∪) (list_to_set fs)).
Qed.

(** C5: when the operation taken by [getNextTodo] returns one function
    reference, or a non-empty list of function references, the loop of
    [executePlans] goes on with the plan graph changed in its skip set
    only, which has gained exactly the returned references, each of them;
    from then on no entry whose operation is one of these references is
    handed out for execution, and none is added to the already-run record
    that [getNextAbort] reads. *)
Theorem executePlans_skips_returned_refs s e pg v w (refs : list OpRef) :
  getNextTodo (plans (update s)) = (Some e, pg) ->
  call (operation e) (arguments e) (world s) = (Returned v, w) ->
  (exists f, v = PyFunc f /\ refs = [f]) \/ (v = PyList refs /\ refs <> []) ->
  let s1 :=
    mkState
      (with_plans (update s)
         (mkPlanGraph (graph_owner pg) (pending pg) (alreadyRun pg)
            (list_to_set refs ∪ skipSet pg)))
      w in
  iterates call s s1 /\
  (forall f, f ∈ refs -> f ∈ skipSet (plans (update s1))) /\
  (forall f, f ∈ skipSet (plans (update s1)) ->
     f ∈ refs \/ f ∈ skipSet (plans (update s))) /\
  (forall s2 e' pg',
     rtc (iterates call) s1 s2 ->
     getNextTodo (plans (update s2)) = (Some e', pg') ->
     operation e' ∉ refs) /\
  (forall r sf,
     executePlans call s1 = (r, sf) ->
     exists new,
       alreadyRun (plans (update sf)) = (alreadyRun (plans (update s1)) ++ new)%list /\
       forall e', e' ∈ new -> operation e' ∉ refs).
Proof.
  intros Hnext Hcall Hv s1.
  assert (truthy v = true /\ as_list v = refs) as [Htruthy Hrefs].
  { destruct Hv as [(f & -> & ->)|[-> Hne]]; [done|]. by destruct refs. }
  assert (forall f, f ∈ skipSet (plans (update s1)) <->
                    f ∈ refs \/ f ∈ skipSet (plans (update s))) as Hskip.
  { intros f. subst s1. simpl.
    apply getNextTodo_some in Hnext as (_ & _ & -> & _).
    by rewrite elem_of_union, elem_of_list_to_set. }
  split; [|split; [|split; [|split]]].
  - unfold iterates. rewrite (executeBody_returned _ _ _ _ _ Hnext Hcall).
    by rewrite Htruthy, Hrefs, registerSkips_eq.
  - intros f Hf. apply Hskip. by left.
  - intros f Hf. by apply Hskip.
  - intros s2 e' pg' Hrun Hnext' Hin.
    apply getNextTodo_some in Hnext' as (Hnot & _).
    apply Hnot. apply (iterates_skipSet _ _ Hrun). apply Hskip. by left.
  - intros r sf Hfin. apply executeLoop_alreadyRun in Hfin as (new & Hnew & Hall).
    exists new. split; [done|]. intros e' Hin Hmem.
    apply (Hall _ Hin). apply Hskip. by left.
Qed.

(** What one pass of the abort loop does, case by case. *)
Lemma abortBody_none b s pg :
  getNextAbort (plans (update s)) = (None, pg) ->
  abortBody call (b, s) = Done (Return false) (mkState (with_plans (update s) pg) (world s)).
Proof. unfold abortBody. by intros ->. Qed.

Lemma abortBody_returned b s e pg v w :
  getNextAbort (plans (update s)) = (Some e, pg) ->
  call (operation e) (arguments e) (world s) = (Returned v, w) ->
  abortBody call (b, s) = Continue (false, mkState (with_plans (update s) pg) w).
Proof. unfold abortBody. by intros -> ->. Qed.

Lemma abortBody_raised b s e pg f w :
  getNextAbort (plans (update s)) = (Some e, pg) ->
  call (operation e) (arguments e) (world s) = (Raised f, w) ->
  abortBody call (b, s) =
    Done (if b then Return true else Raise (NameError "responseMessages"))
         (mkState (with_plans (update s) pg) w).
Proof. unfold abortBody. intros -> ->. by destruct b. Qed.

(** The first compensating call that raises ends [abortPlans] with the
    [NameError] of the handler: nothing is recorded and the remaining
    entries of the already-run record are not visited. *)
Lemma abortPlans_first_fault s e pg f w :
  getNextAbort (plans (update s)) = (Some e, pg) ->
  call (operation e) (arguments e) (world s) = (Raised f, w) ->
  abortPlans call s =
    (Raise (NameError "responseMessages"), mkState (with_plans (update s) pg) w).
Proof.
  intros Hnext Hcall. unfold abortPlans. rewrite abortLoop_unfold.
  by rewrite (abortBody_raised _ _ _ _ _ _ Hnext Hcall).
Qed.

(** Started with the flag clear, the abort loop never reports [True]: the
    flag is set nowhere before the handler is left. *)
Lemma abortLoop_clear_flag_never_true (l : bool * State Owner Arg World) :
  l.1 = false -> (abortLoop call l).1 <> Return true.
Proof.
  funelim (abortLoop call l); intros Hflag.
  - apply H. destruct l as [b s]. simpl in Hflag. subst b.
    pose proof Hbody as Hb. unfold abortBody in Hb.
    destruct (getNextAbort (plans (update s))) as [[e|] pg]; [|discriminate].
    destruct (call (operation e) (arguments e) (world s)) as [[v|f] w]; [|discriminate].
    by injection Hb as <-.
  - destruct l as [b s]. simpl in Hflag. subst b.
    pose proof Hdone as Hd. unfold abortBody in Hd.
    destruct (getNextAbort (plans (update s))) as [[e|] pg].
    + destruct (call (operation e) (arguments e) (world s)) as [[v|f] w]; [discriminate|].
      by injection Hd as <- <-.
    + by injection Hd as <- <-.
Qed.

Lemma abortPlans_never_true s : (abortPlans call s).1 <> Return true.
Proof. by apply abortLoop_clear_flag_never_true. Qed.

End EngineProperties.

(** ** power.py *)
Section PowerProperties.
Import UpdateObject.

Variable Owner : Type.
Variable Arg : Type.
Variable World : Type.
Variable subprocess_call : list string -> World -> Z * World.

(** C7: [reboot] and [shutdown] run the delayed restart, respectively halt,
    command; on status 0 they report their progress message on the update
    and return, and they raise exactly when the status is not 0. *)
Theorem reboot_shutdown_by_status (update : Update Owner Arg) (w : World) :
  let restart := subprocess_call ["shutdown"; "-r"; "+1"] w in
  let halt := subprocess_call ["shutdown"; "-h"; "+1"] w in
  (restart.1 = 0%Z ->
   Power.reboot subprocess_call update w =
     (Return tt, progress update "Rebooting in 60 seconds.", restart.2)) /\
  ((exists e, (Power.reboot subprocess_call update w).1.1 = Raise e) <-> restart.1 <> 0%Z) /\
  (halt.1 = 0%Z ->
   Power.shutdown subprocess_call update w =
     (Return tt, progress update "Halting in 60 seconds.", halt.2)) /\
  ((exists e, (Power.shutdown subprocess_call update w).1.1 = Raise e) <-> halt.1 <> 0%Z).
Proof.
  intros restart halt. subst restart halt. unfold Power.reboot, Power.shutdown.
  destruct (subprocess_call ["shutdown"; "-r"; "+1"] w) as [r1 w1].
  destruct (subprocess_call ["shutdown"; "-h"; "+1"] w) as [r2 w2]. simpl.
  destruct (Z.eqb_spec r1 0) as [->|Hr1]; destruct (Z.eqb_spec r2 0) as [->|Hr2]; simpl;
    repeat split; try done; try (by intros [? ?]); try (intros _; by eexists).
Qed.

End PowerProperties.

(** ** router.py *)
Section RouterProperties.
Import PlanGraph UpdateObject.

Variable Owner : Type.
Variable Arg : Type.
Variable STATE_CALL_STOP : Z.
Variable STATE_SAVE_CHUTE : Z.

(** For a reboot the generator adds the one entry for [power.reboot] at the
    stop stage and returns [None]. *)
Lemma generatePlans_reboot (u : Update Owner Arg) :
  updateType u = "reboot" ->
  exists u',
    Router.generatePlans STATE_CALL_STOP STATE_SAVE_CHUTE u = (Return tt, u') /\
    pending (plans u') =
      (pending (plans u)
         ++ [mkEntry STATE_CALL_STOP (graph_owner (plans u)) "power.reboot" []])%list /\
    responses u' = responses u.
Proof. intros Htype. unfold Router.generatePlans. rewrite Htype. simpl. by eexists. Qed.

(** For a shutdown the generator raises [NameError] and adds nothing. *)
Lemma generatePlans_shutdown (u : Update Owner Arg) :
  updateType u = "shutdown" ->
  Router.generatePlans STATE_CALL_STOP STATE_SAVE_CHUTE u = (Raise (NameError "uphane"), u).
Proof. intros Htype. unfold Router.generatePlans. by rewrite Htype. Qed.

End RouterProperties.

(** ** The concrete router *)
Section DemoProperties.
Import PlanGraph UpdateObject ExecutionPlan.

(** The run of [executePlans] over [Demo.install_state]: ["net.setConfig"]
    runs, ["net.reload"] is dropped, ["docker.start"] raises and
    ["state.saveChute"] stays pending. *)
Example executePlans_install_run :
  executePlans Demo.call Demo.install_state =
    (Return true,
     mkState
       (mkUpdate "install"
          (mkPlanGraph "chute"
             [Demo.entry 40 "state.saveChute"]
             [Demo.entry 10 "net.setConfig"; Demo.entry 30 "docker.start"]
             {[ "net.reload" ]})
          [mkResponse "container failed to start" "Traceback: docker.start"] [])
       ["net.setConfig"; "docker.start"]).
Proof. vm_compute. reflexivity. Qed.

Lemma install_state_iterates :
  rtc (iterates Demo.call) Demo.install_state Demo.after_setConfig.
Proof. apply rtc_once. vm_compute. reflexivity. Qed.

Lemma executePlans_fault_stops_run_witness :
  exists sf,
    executePlans Demo.call Demo.install_state = (Return true, sf) /\
    responses (update sf) =
      (responses (update Demo.install_state)
         ++ [mkResponse "container failed to start" "Traceback: docker.start"])%list /\
    plans (update sf) =
      mkPlanGraph "chute"
        [Demo.entry 40 "state.saveChute"]
        [Demo.entry 10 "net.setConfig"; Demo.entry 30 "docker.start"]
        {[ "net.reload" ]} /\
    world sf = ["net.setConfig"; "docker.start"].
Proof.
  apply (proj1 (executePlans_fault_stops_run string string Demo.World Demo.call
                  Demo.install_state Demo.after_setConfig install_state_iterates)
               (Demo.entry 30 "docker.start")
               _
               (mkFault "container failed to start" "Traceback: docker.start")).
  - vm_compute. reflexivity.
  - vm_compute. reflexivity.
Defined.

(** The run of [executePlans] over [Demo.firewall_state]: ["fw.setRules"]
    returns a list of two functions, both are dropped when their turn
    comes, and ["state.saveChute"] runs. *)
Example executePlans_firewall_run :
  executePlans Demo.call Demo.firewall_state =
    (Return false,
     mkState
       (mkUpdate "install"
          (mkPlanGraph "chute" []
             [Demo.entry 10 "fw.setRules"; Demo.entry 40 "state.saveChute"]
             (list_to_set ["fw.reload"; "dhcp.reload"]))
          [] [])
       ["fw.setRules"; "state.saveChute"]).
Proof. vm_compute. reflexivity. Qed.

Lemma executePlans_skips_returned_refs_witness :
  iterates Demo.call Demo.firewall_state Demo.after_setRules /\
  (forall f, f ∈ ["fw.reload"; "dhcp.reload"] ->
     f ∈ skipSet (plans (update Demo.after_setRules))) /\
  (forall f, f ∈ skipSet (plans (update Demo.after_setRules)) ->
     f ∈ ["fw.reload"; "dhcp.reload"] \/
     f ∈ skipSet (plans (update Demo.firewall_state))) /\
  (forall s2 e' pg',
     rtc (iterates Demo.call) Demo.after_setRules s2 ->
     getNextTodo (plans (update s2)) = (Some e', pg') ->
     operation e' ∉ ["fw.reload"; "dhcp.reload"]) /\
  (forall r sf,
     executePlans Demo.call Demo.after_setRules = (r, sf) ->
     exists new,
       alreadyRun (plans (update sf)) = ([Demo.entry 10 "fw.setRules"] ++ new)%list /\
       forall e', e' ∈ new -> operation e' ∉ ["fw.reload"; "dhcp.reload"]).
Proof.
  refine (executePlans_skips_returned_refs string string Demo.World Demo.call
       Demo.firewall_state (Demo.entry 10 "fw.setRules")
       (mkPlanGraph "chute"
          [Demo.entry 20 "fw.reload"; Demo.entry 25 "dhcp.reload";
           Demo.entry 40 "state.saveChute"]
          [Demo.entry 10 "fw.setRules"] ∅)
       (PyList ["fw.reload"; "dhcp.reload"]) ["fw.setRules"]
       ["fw.reload"; "dhcp.reload"] _ _ _).
  - vm_compute. reflexivity.
  - reflexivity.
  - right. split; [reflexivity|discriminate].
Defined.

(** C1: the newest compensating call of [Demo.abort_one_fault] returns and
    the one before it raises; [abortPlans] then leaves by [NameError],
    [update.responses] is still empty and the entry for ["net.setConfig"]
    is still in the already-run record, not visited. *)
Theorem abortPlans_single_fault_name_error :
  abortPlans Demo.call Demo.abort_one_fault =
    (Raise (NameError "responseMessages"),
     mkState
       (mkUpdate "install"
          (mkPlanGraph "chute" [] [Demo.entry 10 "net.setConfig"] ∅) [] [])
       ["state.saveChute"; "docker.start"]).
Proof. vm_compute. reflexivity. Qed.

(** C2: on [Demo.abort_fault_last] the fault of the compensating call is
    not turned into a response record: [abortPlans] returns no boolean and
    an exception reaches its caller. *)
Theorem abortPlans_exception_escapes :
  (abortPlans Demo.call Demo.abort_fault_last).1 = Raise (NameError "responseMessages") /\
  (forall b : bool, (abortPlans Demo.call Demo.abort_fault_last).1 <> Return b) /\
  responses (update (abortPlans Demo.call Demo.abort_fault_last).2) = [].
Proof.
  assert ((abortPlans Demo.call Demo.abort_fault_last).1
          = Raise (NameError "responseMessages")) as Hr by (vm_compute; reflexivity).
  split; [done|]. split; [|vm_compute; reflexivity].
  intros b. by rewrite Hr.
Qed.

(** C3: on [Demo.abort_two_faults] the two newest compensating calls raise;
    [abortPlans] does not return [True]: it leaves by [NameError] at the
    first of the two, no fault is recorded in [update.responses], and the
    second faulting entry is still in the already-run record, not
    visited. *)
Theorem abortPlans_two_faults_name_error :
  (exists f w, Demo.call "docker.start" [] [] = (Raised f, w)) /\
  (exists f w, Demo.call "docker.stop" [] ["docker.start"] = (Raised f, w)) /\
  ~ (exists sf, abortPlans Demo.call Demo.abort_two_faults = (Return true, sf)) /\
  abortPlans Demo.call Demo.abort_two_faults =
    (Raise (NameError "responseMessages"),
     mkState
       (mkUpdate "install"
          (mkPlanGraph "chute" []
             [Demo.entry 10 "net.setConfig"; Demo.entry 20 "docker.stop"] ∅) [] [])
       ["docker.start"]).
Proof.
  assert (abortPlans Demo.call Demo.abort_two_faults =
    (Raise (NameError "responseMessages"),
     mkState
       (mkUpdate "install"
          (mkPlanGraph "chute" []
             [Demo.entry 10 "net.setConfig"; Demo.entry 20 "docker.stop"] ∅) [] [])
       ["docker.start"])) as Hrun by (vm_compute; reflexivity).
  split; [by eexists _, _|]. split; [by eexists _, _|]. split; [|done].
  intros [sf Hsf]. rewrite Hrun in Hsf. discriminate.
Qed.

(** C6: for the update type ["shutdown"] the router-control generator adds
    no entry: it raises [NameError] and leaves [update.plans] as it was. *)
Theorem generatePlans_shutdown_name_error (STATE_CALL_STOP STATE_SAVE_CHUTE : Z) :
  Router.generatePlans STATE_CALL_STOP STATE_SAVE_CHUTE Demo.shutdown_update =
    (Raise (NameError "uphane"), Demo.shutdown_update) /\
  pending (plans Demo.shutdown_update) = [].
Proof. split; reflexivity. Qed.

Example generatePlans_reboot_update (STATE_CALL_STOP STATE_SAVE_CHUTE : Z) :
  Router.generatePlans STATE_CALL_STOP STATE_SAVE_CHUTE Demo.reboot_update =
    (Return tt,
     mkUpdate "reboot"
       (mkPlanGraph "router" [mkEntry STATE_CALL_STOP "router" "power.reboot" []] [] ∅)
       [] []).
Proof. reflexivity. Qed.

Example reboot_status_zero :
  Power.reboot Demo.subprocess_call Demo.reboot_update [] =
    (Return tt,
     mkUpdate "reboot" (mkPlanGraph "router" [] [] ∅) [] ["Rebooting in 60 seconds."],
     ["shutdown"; "-r"; "+1"]).
Proof. vm_compute. reflexivity. Qed.

Example shutdown_status_one :
  Power.shutdown Demo.subprocess_call Demo.shutdown_update [] =
    (Raise (Exception "shutdown command failed, returned 1"),
     Demo.shutdown_update,
     ["shutdown"; "-h"; "+1"]).
Proof. vm_compute. reflexivity. Qed.

End DemoProperties.

(** * Further properties *)

(** ** Chute: cache, inherited attributes, services *)
Section ChuteCache.

Variable Service : Type.
Variable Value : Type.

Implicit Types c self other : Chute.Chute Service Value.

(** X1: a value stored with [setCache] is what [getCache] returns for that
    key; the other keys, the services and the validity of the chute are
    as before. *)
Theorem setCache_getCache c (k : string) (v : Value) :
  Chute.getCache (Chute.setCache c k v) k = Some v /\
  (forall k', k' <> k ->
     Chute.getCache (Chute.setCache c k v) k' = Chute.getCache c k') /\
  Chute.services (Chute.setCache c k v) = Chute.services c /\
  Chute.isValid (Chute.setCache c k v) = Chute.isValid c.
Proof.
  unfold Chute.getCache, Chute.setCache. simpl. split; [apply lookup_insert_eq|].
  split; [|done]. intros k' Hne. by apply lookup_insert_ne.
Qed.

(** X2: after [updateCache] a key of the other dictionary reads the other
    dictionary's value and every other key reads as before; updating with a
    one-entry dictionary is [setCache], and two updates in a row are one
    update with the later dictionary taking precedence. *)
Theorem updateCache_getCache c (other : gmap string Value) :
  (forall k,
     Chute.getCache (Chute.updateCache c other) k =
       match other !! k with
       | Some v => Some v
       | None => Chute.getCache c k
       end) /\
  (forall k v, Chute.updateCache c {[ k := v ]} = Chute.setCache c k v) /\
  (forall later,
     Chute.updateCache (Chute.updateCache c other) later =
       Chute.updateCache c (later ∪ other)).
Proof.
  unfold Chute.getCache, Chute.updateCache, Chute.setCache, Chute.with_cache. simpl.
  split; [|split].
  - intros k. rewrite lookup_union.
    destruct (other !! k) as [v|]; [by destruct (Chute._cache c !! k)|].
    by rewrite (left_id None _).
  - intros k v. by rewrite insert_union_singleton_l.
  - intros later. by rewrite (assoc_L (∪)).
Qed.

End ChuteCache.

Section ChuteInherit.

Variable Service : Type.
Variable Value : Type.

Implicit Types c self other : Chute.Chute Service Value.
Implicit Types changes : gmap string string.

Lemma getattr_unknown self a :
  a ∉ ["name"; "description"; "state"; "version"] -> Chute.getattr self a = None.
Proof.
  intros Hnot. unfold Chute.getattr.
  repeat match goal with
         | |- context [String.eqb a ?s] =>
             destruct (String.eqb_spec a s) as [->|?]; [exfalso; apply Hnot; repeat constructor|]
         end.
  done.
Qed.

Lemma getattr_setattr_eq self b v :
  b ∈ ["name"; "description"; "state"; "version"] ->
  Chute.getattr (Chute.setattr self b v) b = Some v.
Proof.
  intros Hb. repeat (apply elem_of_cons in Hb as [->|Hb]; [reflexivity|]).
  by apply elem_of_nil in Hb.
Qed.

Lemma getattr_setattr_ne self a b v :
  a <> b -> Chute.getattr (Chute.setattr self b v) a = Chute.getattr self a.
Proof.
  intros Hne. unfold Chute.setattr.
  repeat match goal with
         | |- context [String.eqb b ?s] =>
             destruct (String.eqb_spec b s) as [->|?];
             [unfold Chute.getattr; cbn;
              repeat match goal with
                     | |- context [String.eqb a ?t] =>
                         destruct (String.eqb_spec a t) as [->|?]; [done|]
                     end; done|]
         end.
  done.
Qed.

Lemma setattr_frame self b v :
  Chute.owner (Chute.setattr self b v) = Chute.owner self /\
  Chute.config (Chute.setattr self b v) = Chute.config self /\
  Chute.services (Chute.setattr self b v) = Chute.services self /\
  Chute._cache (Chute.setattr self b v) = Chute._cache self.
Proof.
  unfold Chute.setattr.
  repeat match goal with
         | |- context [String.eqb b ?s] => destruct (String.eqb_spec b s) as [->|?]; [done|]
         end.
  done.
Qed.

(** A pass of the loop that finds nothing to fill leaves the loop
    variables as they are. *)
Lemma inherit_step_nothing other changes self b :
  (Chute.getattr self b = None -> Chute.getattr other b = None) ->
  Chute.inherit_step other (changes, self) b = (changes, self).
Proof.
  intros Hnone. unfold Chute.inherit_step.
  destruct (Chute.getattr self b); [done|]. by rewrite Hnone.
Qed.

(** The loop of [inherit_attributes] over any duplicate-free list of the
    four attribute names. *)
Lemma inherit_loop other (l : list string) :
  NoDup l ->
  l ⊆ ["name"; "description"; "state"; "version"] ->
  forall changes self,
    let changes' := (foldl (Chute.inherit_step other) (changes, self) l).1 in
    let self' := (foldl (Chute.inherit_step other) (changes, self) l).2 in
    (forall a,
       Chute.getattr self' a =
         if bool_decide (a ∈ l) then
           match Chute.getattr self a with
           | Some v => Some v
           | None => Chute.getattr other a
           end
         else Chute.getattr self a) /\
    (forall a,
       changes' !! a =
         if bool_decide (a ∈ l) then
           match Chute.getattr self a, Chute.getattr other a with
           | None, Some v => Some v
           | _, _ => changes !! a
           end
         else changes !! a) /\
    Chute.owner self' = Chute.owner self /\
    Chute.config self' = Chute.config self /\
    Chute.services self' = Chute.services self /\
    Chute._cache self' = Chute._cache self.
Proof.
  induction l as [|b l IH]; intros Hnd Hsub changes self; [done|].
  apply NoDup_cons in Hnd as [Hb Hnd].
  assert (b ∈ ["name"; "description"; "state"; "version"]) as Hb4
    by (apply Hsub; left).
  assert (l ⊆ ["name"; "description"; "state"; "version"]) as Hsub'
    by (intros x Hx; apply Hsub; by right).
  cbn [foldl].
  destruct (Chute.inherit_step other (changes, self) b) as [changes1 self1] eqn:Hstep.
  destruct (IH Hnd Hsub' changes1 self1) as (Hget & Hch & Hframe).
  assert (forall a, Chute.getattr self1 a =
            if decide (a = b) then
              match Chute.getattr self b with
              | Some v => Some v
              | None => Chute.getattr other b
              end
            else Chute.getattr self a) as Hget1.
  { intros a. unfold Chute.inherit_step in Hstep.
    destruct (Chute.getattr self b) as [v|] eqn:Hsb.
    - injection Hstep as <- <-. by case_decide; subst.
    - destruct (Chute.getattr other b) as [v|] eqn:Hob; injection Hstep as <- <-.
      + case_decide; subst; [by apply getattr_setattr_eq|by apply getattr_setattr_ne].
      + by case_decide; subst. }
  assert (forall a, changes1 !! a =
            if decide (a = b) then
              match Chute.getattr self b, Chute.getattr other b with
              | None, Some v => Some v
              | _, _ => changes !! b
              end
            else changes !! a) as Hch1.
  { intros a. unfold Chute.inherit_step in Hstep.
    destruct (Chute.getattr self b) as [v|] eqn:Hsb.
    - injection Hstep as <- <-. by case_decide; subst.
    - destruct (Chute.getattr other b) as [v|] eqn:Hob; injection Hstep as <- <-.
      + case_decide; subst; [apply lookup_insert_eq|by apply lookup_insert_ne].
      + by case_decide; subst. }
  assert (Chute.owner self1 = Chute.owner self /\
          Chute.config self1 = Chute.config self /\
          Chute.services self1 = Chute.services self /\
          Chute._cache self1 = Chute._cache self) as Hframe1.
  { unfold Chute.inherit_step in Hstep.
    destruct (Chute.getattr self b); [by injection Hstep as <- <-|].
    destruct (Chute.getattr other b); injection Hstep as <- <-; [|done].
    apply setattr_frame. }
  split; [|split].
  - intros a. rewrite Hget, (Hget1 a). destruct (decide (a = b)) as [->|Hne].
    + rewrite (bool_decide_eq_false_2 _ Hb), bool_decide_eq_true_2 by left. done.
    + destruct (decide (a ∈ l)) as [Hin|Hnin].
      * by rewrite !bool_decide_eq_true_2 by (done || by right).
      * rewrite !bool_decide_eq_false_2; [done| |done].
        by intros [?|?]%elem_of_cons.
  - intros a. rewrite Hch, (Hch1 a), (Hget1 a). destruct (decide (a = b)) as [->|Hne].
    + rewrite (bool_decide_eq_false_2 _ Hb), bool_decide_eq_true_2 by left. done.
    + destruct (decide (a ∈ l)) as [Hin|Hnin].
      * by rewrite !bool_decide_eq_true_2 by (done || by right).
      * rewrite !bool_decide_eq_false_2; [done| |done].
        by intros [?|?]%elem_of_cons.
  - destruct Hframe as (-> & -> & -> & ->). done.
Qed.

Lemma attribute_names_NoDup :
  NoDup ["name"; "description"; "state"; "version"].
Proof. apply (bool_decide_unpack _). vm_compute. exact I. Qed.

Lemma inherit_attributes_getattr self other a :
  Chute.getattr (Chute.inherit_attributes self other).2 a =
    match Chute.getattr self a with
    | Some v => Some v
    | None => Chute.getattr other a
    end.
Proof.
  unfold Chute.inherit_attributes.
  destruct (inherit_loop other _ attribute_names_NoDup (reflexivity _) ∅ self)
    as (Hget & _).
  rewrite Hget. case_bool_decide as Hin; [done|]. by rewrite !getattr_unknown.
Qed.

(** X3: [inherit_attributes] fills exactly the attributes among name,
    description, state and version that are [None] in [self], from the
    other version, never replaces a value [self] has, reports in its result
    exactly the attributes it filled, and leaves owner, configuration,
    services and cache alone. *)
Theorem inherit_attributes_fills_absent self other :
  let changes := (Chute.inherit_attributes self other).1 in
  let self' := (Chute.inherit_attributes self other).2 in
  (forall a,
     Chute.getattr self' a =
       match Chute.getattr self a with
       | Some v => Some v
       | None => Chute.getattr other a
       end) /\
  (forall a,
     changes !! a =
       match Chute.getattr self a with
       | Some _ => None
       | None => Chute.getattr other a
       end) /\
  Chute.owner self' = Chute.owner self /\
  Chute.config self' = Chute.config self /\
  Chute.services self' = Chute.services self /\
  Chute._cache self' = Chute._cache self.
Proof.
  intros changes self'. subst changes self'. unfold Chute.inherit_attributes.
  destruct (inherit_loop other _ attribute_names_NoDup (reflexivity _) ∅ self)
    as (Hget & Hch & Hframe).
  split; [|split; [|done]]; intros a.
  - apply inherit_attributes_getattr.
  - rewrite Hch, lookup_empty. case_bool_decide as Hin.
    + by destruct (Chute.getattr self a), (Chute.getattr other a).
    + by rewrite !getattr_unknown.
Qed.

(** X4: inheriting a second time from the same version changes nothing and
    reports no change. *)
Theorem inherit_attributes_twice self other :
  let self' := (Chute.inherit_attributes self other).2 in
  Chute.inherit_attributes self' other = (∅, self').
Proof.
  intros self'.
  assert (forall b, Chute.getattr self' b = None -> Chute.getattr other b = None) as Hfix.
  { intros b. subst self'.
    rewrite inherit_attributes_getattr.
    by destruct (Chute.getattr self b). }
  unfold Chute.inherit_attributes at 1. cbn [foldl].
  by rewrite !inherit_step_nothing by apply Hfix.
Qed.

(** X5: after [inherit_attributes] the chute is valid exactly when it was
    valid before, or its name was [None] and the other version is valid; a
    chute whose name is the empty string stays invalid, since only [None]
    is filled. *)
Theorem inherit_attributes_isValid self other :
  Chute.isValid (Chute.inherit_attributes self other).2 =
    Chute.isValid self
    || (bool_decide (Chute.name self = None) && Chute.isValid other).
Proof.
  pose proof (inherit_attributes_getattr self other "name") as Hname.
  change (Chute.name (Chute.inherit_attributes self other).2 =
          match Chute.name self with
          | Some v => Some v
          | None => Chute.name other
          end) in Hname.
  unfold Chute.isValid. rewrite Hname.
  destruct (Chute.name self) as [[|? ?]|]; [done|done|].
  rewrite bool_decide_eq_true_2 by done.
  by destruct (Chute.name other) as [[|? ?]|].
Qed.

End ChuteInherit.

Section ChuteServices.

Variable Service : Type.
Variable Value : Type.

Implicit Types c : Chute.Chute Service Value.

Lemma get_service_lookup c (n : string) :
  Chute.get_service c n =
    match Chute.services c !! n with
    | Some s => Return s
    | None => Raise (ServiceNotFound n)
    end.
Proof.
  unfold Chute.get_service, Chute.subscript.
  destruct (Chute.services c !! n) as [s|] eqn:Hs.
  - by rewrite bool_decide_eq_true_2.
  - by rewrite bool_decide_eq_false_2 by (by intros [? ?]).
Qed.

(** X6: a service added under a name is the one [get_service] returns for
    that name, replacing an earlier service of the same name; the other
    names answer as before; a name without a service raises
    [ServiceNotFound]; and [get_services] lists exactly the services some
    name answers with. *)
Theorem add_service_get_service c (n : string) (s : Service) :
  Chute.get_service (Chute.add_service c n s) n = Return s /\
  (forall n', n' <> n ->
     Chute.get_service (Chute.add_service c n s) n' = Chute.get_service c n') /\
  (forall n', Chute.services c !! n' = None ->
     Chute.get_service c n' = Raise (ServiceNotFound n')) /\
  (forall s', s' ∈ Chute.get_services c <-> exists n', Chute.get_service c n' = Return s').
Proof.
  split; [|split; [|split]].
  - rewrite get_service_lookup. simpl. by rewrite lookup_insert_eq.
  - intros n' Hne. rewrite !get_service_lookup. simpl. by rewrite lookup_insert_ne.
  - intros n' Hnone. by rewrite get_service_lookup, Hnone.
  - intros s'. unfold Chute.get_services. rewrite list_elem_of_fmap. split.
    + intros [[n' s''] [-> Hin]]. apply elem_of_map_to_list in Hin.
      exists n'. by rewrite get_service_lookup, Hin.
    + intros [n' Hget]. rewrite get_service_lookup in Hget.
      destruct (Chute.services c !! n') as [s''|] eqn:Hs; [|done].
      injection Hget as ->. exists (n', s'). split; [done|].
      by apply elem_of_map_to_list.
Qed.

(** X7: [get_default_service] raises exactly when the chute has no
    service, and a service it returns is one of the chute's services. *)
Theorem get_default_service_raises_iff_empty c :
  ((exists e, Chute.get_default_service c = Raise e) <-> Chute.services c = ∅) /\
  (forall s, Chute.get_default_service c = Return s -> s ∈ Chute.get_services c).
Proof.
  assert (forall s, Chute.get_default_service c = Return s ->
                    exists n, Chute.services c !! n = Some s) as Hstored.
  { intros s. unfold Chute.get_default_service, Chute.subscript.
    case_bool_decide as Hmain.
    - destruct (Chute.services c !! "main") as [s'|] eqn:Hs; [|done].
      intros [= <-]. by exists "main".
    - destruct (py_min (Chute.keys (Chute.services c))) as [n|e]; [|done].
      destruct (Chute.services c !! n) as [s'|] eqn:Hs; [|done].
      intros [= <-]. by exists n. }
  split.
  - split.
    + intros [e He]. unfold Chute.get_default_service, Chute.subscript in He.
      case_bool_decide as Hmain.
      { destruct Hmain as [s Hs]. by rewrite Hs in He. }
      destruct (Chute.keys (Chute.services c)) as [|x rest] eqn:Hkeys.
      { by apply keys_nil in Hkeys. }
      simpl in He.
      assert (is_Some (Chute.services c !! py_min_from x rest)) as [s Hs].
      { apply keys_elem. rewrite Hkeys. apply py_min_from_elem. }
      by rewrite Hs in He.
    + intros Hempty. unfold Chute.get_default_service.
      rewrite Hempty, lookup_empty.
      rewrite bool_decide_eq_false_2 by (by intros [? ?]).
      rewrite (proj2 (keys_nil _ ∅) eq_refl). by eexists.
  - intros s Hs. destruct (Hstored s Hs) as [n Hn].
    unfold Chute.get_services. apply list_elem_of_fmap.
    exists (n, s). split; [done|]. by apply elem_of_map_to_list.
Qed.

(** X8: a service added under the name ["main"] is the default service
    whatever else the chute holds; a chute fresh from the constructor has
    no default service, and after one service is added to it, under any
    name, that service is the default. *)
Theorem get_default_service_after_add c (s : Service)
    (nm descr own st ver : option string) (cfg : option (gmap string Value))
    (n : string) :
  let fresh := Chute.init nm descr own st ver cfg in
  Chute.get_default_service (Chute.add_service c "main" s) = Return s /\
  Chute.get_default_service fresh = Raise (ValueError "min() arg is an empty sequence") /\
  Chute.get_service fresh n = Raise (ServiceNotFound n) /\
  Chute.get_default_service (Chute.add_service fresh n s) = Return s.
Proof.
  intros fresh. split; [|split; [|split]].
  - unfold Chute.get_default_service, Chute.subscript. simpl.
    rewrite lookup_insert_eq. by rewrite bool_decide_eq_true_2.
  - unfold Chute.get_default_service. simpl. rewrite lookup_empty.
    rewrite bool_decide_eq_false_2 by (by intros [? ?]).
    by rewrite (proj2 (keys_nil _ ∅) eq_refl).
  - by rewrite get_service_lookup.
  - unfold Chute.get_default_service, Chute.subscript. simpl.
    change (<[n:=s]> (∅ : gmap string Service)) with ({[ n := s ]} : gmap string Service).
    destruct (decide (n = "main")) as [->|Hne].
    + rewrite lookup_singleton_eq. by rewrite bool_decide_eq_true_2.
    + rewrite lookup_singleton_ne by done.
      rewrite bool_decide_eq_false_2 by (by intros [? ?]).
      unfold Chute.keys. rewrite map_to_list_singleton. simpl.
      by rewrite lookup_singleton_eq.
Qed.

End ChuteServices.

(** ** The plan graph, continued *)
Section PlanGraphSearch.
Import PlanGraph.

Variable Owner : Type.
Variable Arg : Type.

Implicit Types pg : PlanGraph Owner Arg.
Implicit Types e : Entry Owner Arg.
Implicit Types l rest : list (Entry Owner Arg).

Lemma extractMin_none l : extractMin l = None -> l = [].
Proof.
  destruct l as [|x l]; [done|]. simpl.
  destruct (extractMin l) as [[m r]|]; [|done].
  by destruct (stage x <=? stage m)%Z.
Qed.

Lemma extractMin_elem l e rest :
  extractMin l = Some (e, rest) -> e ∈ l /\ rest ⊆ l.
Proof.
  revert e rest. induction l as [|x l IH]; intros e rest; simpl; [done|].
  destruct (extractMin l) as [[m r]|] eqn:Hm.
  - destruct (IH m r eq_refl) as [Hin Hsub].
    destruct (stage x <=? stage m)%Z; intros [= <- <-].
    + split; [left|]. intros y Hy. by right.
    + split; [by right|]. intros y [->|Hy]%elem_of_cons; [left|right; by apply Hsub].
  - intros [= <- <-]. split; [left|]. by intros y ?%elem_of_nil.
Qed.

Lemma nextTodo_none (skip : gset OpRef) l rest :
  nextTodo skip l = (None, rest) -> rest = [].
Proof.
  funelim (nextTodo skip l).
  - destruct (bool_decide (operation e ∈ skip)); [apply H|discriminate].
  - intros [= <-]. by apply extractMin_none.
Qed.

Lemma nextTodo_elem (skip : gset OpRef) l e rest :
  nextTodo skip l = (Some e, rest) -> e ∈ l /\ rest ⊆ l.
Proof.
  funelim (nextTodo skip l); [|discriminate].
  destruct (extractMin_elem _ _ _ Hmin) as [Hin Hsub].
  destruct (bool_decide (operation e ∈ skip)).
  - intros Heq. destruct (H _ _ Heq) as [Hin' Hsub'].
    split; [by apply Hsub|]. intros y Hy. by apply Hsub, Hsub'.
  - by intros [= <- <-].
Qed.

Lemma getNextTodo_frame pg o pg' :
  getNextTodo pg = (o, pg') ->
  graph_owner pg' = graph_owner pg /\ skipSet pg' = skipSet pg /\ pending pg' ⊆ pending pg.
Proof.
  unfold getNextTodo.
  destruct (nextTodo (skipSet pg) (pending pg)) as [[e|] rest] eqn:Hnext;
    intros [= <- <-]; simpl.
  - by destruct (nextTodo_elem _ _ _ _ Hnext).
  - apply nextTodo_none in Hnext as ->. split; [done|]. split; [done|].
    by intros y ?%elem_of_nil.
Qed.

Lemma getNextTodo_none_drained pg pg' :
  getNextTodo pg = (None, pg') -> pending pg' = [].
Proof.
  unfold getNextTodo.
  destruct (nextTodo (skipSet pg) (pending pg)) as [[e|] rest] eqn:Hnext; [done|].
  intros [= <-]. simpl. by apply nextTodo_none in Hnext.
Qed.

Lemma getNextTodo_some_pending pg e pg' :
  getNextTodo pg = (Some e, pg') -> e ∈ pending pg.
Proof.
  unfold getNextTodo.
  destruct (nextTodo (skipSet pg) (pending pg)) as [[e'|] rest] eqn:Hnext; [|done].
  intros [= <- <-]. by destruct (nextTodo_elem _ _ _ _ Hnext).
Qed.

Lemma unsnoc_snoc l e : unsnoc (l ++ [e]) = Some (l, e).
Proof. induction l as [|x l IH]; [done|]. simpl. by rewrite IH. Qed.

Lemma getNextAbort_snoc pg front e :
  alreadyRun pg = (front ++ [e])%list ->
  getNextAbort pg =
    (Some e, mkPlanGraph (graph_owner pg) (pending pg) front (skipSet pg)).
Proof. intros Hrec. unfold getNextAbort. by rewrite Hrec, unsnoc_snoc. Qed.

Lemma getNextAbort_nil pg : alreadyRun pg = [] -> getNextAbort pg = (None, pg).
Proof. intros Hrec. unfold getNextAbort. by rewrite Hrec. Qed.

End PlanGraphSearch.

(** ** The execution engine, whole runs *)

(** The two loops, one pass unfolded. *)
Lemma executeLoop_pass {Owner Arg World : Type}
    (call : PlanGraph.OpRef -> list Arg -> World -> ExecutionPlan.Outcome * World)
    (s : ExecutionPlan.State Owner Arg World) :
  ExecutionPlan.executeLoop call s =
  match ExecutionPlan.executeBody call s with
  | ExecutionPlan.Continue s' => ExecutionPlan.executeLoop call s'
  | ExecutionPlan.Done r s' => (r, s')
  end.
Proof. apply executeLoop_unfold. Qed.

Lemma abortLoop_pass {Owner Arg World : Type}
    (call : PlanGraph.OpRef -> list Arg -> World -> ExecutionPlan.Outcome * World)
    (l : bool * ExecutionPlan.State Owner Arg World) :
  ExecutionPlan.abortLoop call l =
  match ExecutionPlan.abortBody call l with
  | ExecutionPlan.Continue l' => ExecutionPlan.abortLoop call l'
  | ExecutionPlan.Done r s' => (r, s')
  end.
Proof. apply abortLoop_unfold. Qed.

Section EngineRuns.
Import PlanGraph UpdateObject ExecutionPlan.

Variable Owner : Type.
Variable Arg : Type.
Variable World : Type.
Variable call : OpRef -> list Arg -> World -> Outcome * World.

Implicit Types s : State Owner Arg World.
Implicit Types pg : PlanGraph Owner Arg.
Implicit Types e : Entry Owner Arg.

(** Registering the returned references touches the skip set only. *)
Lemma skips_frame pg (v : PyValue) :
  let pgv := if truthy v then registerSkips pg (as_list v) else pg in
  pending pgv = pending pg /\
  alreadyRun pgv = alreadyRun pg /\
  skipSet pg ⊆ skipSet pgv.
Proof.
  destruct (truthy v); simpl; [|done].
  rewrite ExecutionPlan.registerSkips_pending, registerSkips_alreadyRun,
    registerSkips_skipSet.
  split; [done|]. split; [done|]. apply union_subseteq_r.
Qed.

(** X9: every run of [executePlans] ends with a boolean.  When it is [True]
    exactly one record has been appended to [update.responses], when it is
    [False] none; the already-run record has grown by entries that were
    pending at the start, no entry has become pending, and no reference
    has left the skip set. *)
Theorem executePlans_run_summary s :
  let r := (executePlans call s).1 in
  let sf := (executePlans call s).2 in
  exists (b : bool) (new : list (Entry Owner Arg)),
    r = Return b /\
    (if b then
       exists f, responses (update sf) = (responses (update s) ++ [response_of f])%list
     else responses (update sf) = responses (update s)) /\
    alreadyRun (plans (update sf)) = (alreadyRun (plans (update s)) ++ new)%list /\
    (forall e, e ∈ new -> e ∈ pending (plans (update s))) /\
    pending (plans (update sf)) ⊆ pending (plans (update s)) /\
    skipSet (plans (update s)) ⊆ skipSet (plans (update sf)).
Proof.
  cbv zeta. unfold executePlans.
  remember (todoSize _ _ _ s) as n eqn:Hn. revert s Hn.
  induction n as [n IH] using lt_wf_ind. intros s ->.
  rewrite executeLoop_pass.
  destruct (getNextTodo (plans (update s))) as [[e|] pg] eqn:Hnext.
  - pose proof (getNextTodo_some _ _ _ _ _ Hnext) as (_ & Hrec & Hskip & Hlen).
    pose proof (getNextTodo_frame _ _ _ _ _ Hnext) as (_ & _ & Hsub).
    pose proof (getNextTodo_some_pending _ _ _ _ _ Hnext) as Hpend.
    destruct (call (operation e) (arguments e) (world s)) as [[v|f] w] eqn:Hcall.
    + rewrite (executeBody_returned _ _ _ _ _ _ _ _ _ Hnext Hcall).
      destruct (skips_frame pg v) as (Hp & Hr & Hs).
      set (s1 := mkState (with_plans (update s)
                  (if truthy v then registerSkips pg (as_list v) else pg)) w).
      assert (todoSize _ _ _ s1 < todoSize _ _ _ s) as Hlt.
      { unfold todoSize. subst s1. simpl. by rewrite Hp. }
      destruct (IH _ Hlt s1 eq_refl)
        as (b & new & Hret & Hresp & Hrun & Hnew & Hpsub & Hskips).
      exists b, (e :: new). split; [done|]. split; [done|]. split.
      { rewrite Hrun. subst s1. simpl. rewrite Hr, Hrec. by rewrite <- app_assoc. }
      split.
      { intros e' [->|Hin]%elem_of_cons; [done|].
        apply Hsub. rewrite <- Hp. by apply Hnew. }
      split.
      { intros e' Hin. apply Hsub. rewrite <- Hp. by apply Hpsub. }
      etrans; [|exact Hskips]. subst s1. simpl. by rewrite <- Hskip.
    + rewrite (executeBody_raised _ _ _ _ _ _ _ _ _ Hnext Hcall). simpl.
      exists true, [e]. split; [done|]. split; [by exists f|].
      split; [done|]. split; [by intros e' ->%list_elem_of_singleton|].
      split; [done|]. by rewrite Hskip.
  - pose proof (getNextTodo_none _ _ _ _ Hnext) as (Hrec & Hskip).
    pose proof (getNextTodo_frame _ _ _ _ _ Hnext) as (_ & _ & Hsub).
    rewrite (executeBody_none _ _ _ _ _ _ Hnext). simpl.
    exists false, []. rewrite app_nil_r, Hskip.
    split; [done|]. split; [done|]. split; [done|].
    split; [by intros e' ?%elem_of_nil|]. done.
Qed.

(** X10: when none of the pending operations raises, whatever the state of
    the infrastructure it is called in, [executePlans] returns [False],
    leaves no entry pending and appends nothing to [update.responses]. *)
Theorem executePlans_completes_without_fault s :
  (forall e, e ∈ pending (plans (update s)) ->
     forall w, exists v w', call (operation e) (arguments e) w = (Returned v, w')) ->
  exists sf,
    executePlans call s = (Return false, sf) /\
    pending (plans (update sf)) = [] /\
    responses (update sf) = responses (update s).
Proof.
  unfold executePlans.
  remember (todoSize _ _ _ s) as n eqn:Hn. revert s Hn.
  induction n as [n IH] using lt_wf_ind. intros s -> Hquiet.
  rewrite executeLoop_pass.
  destruct (getNextTodo (plans (update s))) as [[e|] pg] eqn:Hnext.
  - pose proof (getNextTodo_some _ _ _ _ _ Hnext) as (_ & _ & _ & Hlen).
    pose proof (getNextTodo_frame _ _ _ _ _ Hnext) as (_ & _ & Hsub).
    pose proof (getNextTodo_some_pending _ _ _ _ _ Hnext) as Hpend.
    destruct (Hquiet e Hpend (world s)) as (v & w & Hcall).
    rewrite (executeBody_returned _ _ _ _ _ _ _ _ _ Hnext Hcall).
    destruct (skips_frame pg v) as (Hp & _ & _).
    set (s1 := mkState (with_plans (update s)
                (if truthy v then registerSkips pg (as_list v) else pg)) w).
    assert (todoSize _ _ _ s1 < todoSize _ _ _ s) as Hlt.
    { unfold todoSize. subst s1. simpl. by rewrite Hp. }
    apply (IH _ Hlt s1 eq_refl).
    intros e' Hin. apply Hquiet, Hsub. subst s1. simpl in Hin. by rewrite Hp in Hin.
  - rewrite (executeBody_none _ _ _ _ _ _ Hnext).
    eexists. split; [done|]. simpl. split; [|done].
    by apply getNextTodo_none_drained in Hnext.
Qed.

(** The abort loop over a record whose compensating calls all return. *)
Lemma abortLoop_quiet (l : list (Entry Owner Arg)) :
  forall (b : bool) ty own pend skip resp plog (w : World),
    (forall e, e ∈ l ->
       forall w', exists v w'', call (operation e) (arguments e) w' = (Returned v, w'')) ->
    abortLoop call (b, mkState (mkUpdate ty (mkPlanGraph own pend l skip) resp plog) w) =
      (Return false,
       mkState (mkUpdate ty (mkPlanGraph own pend [] skip) resp plog)
         (foldl (fun w' e => (call (operation e) (arguments e) w').2) w (rev l))).
Proof.
  induction l as [|e front IH] using rev_ind; intros b ty own pend skip resp plog w Hquiet.
  - rewrite abortLoop_pass. by erewrite abortBody_none by (by apply getNextAbort_nil).
  - assert (e ∈ (front ++ [e])%list) as He by (apply elem_of_app; right; left).
    destruct (Hquiet e He w) as (v & w1 & Hcall).
    rewrite abortLoop_pass.
    erewrite abortBody_returned; [|by apply getNextAbort_snoc|exact Hcall].
    unfold with_plans. simpl. rewrite IH.
    + rewrite rev_unit. simpl. by rewrite Hcall.
    + intros e' Hin. apply Hquiet, elem_of_app. by left.
Qed.

(** X11: when none of the compensating calls of the already-run record
    raises, [abortPlans] returns [False], the record is empty afterwards,
    the compensating calls have been made newest entry first, and pending
    entries, skip set and responses are as before. *)
Theorem abortPlans_unwinds_in_reverse s :
  (forall e, e ∈ alreadyRun (plans (update s)) ->
     forall w, exists v w', call (operation e) (arguments e) w = (Returned v, w')) ->
  abortPlans call s =
    (Return false,
     mkState
       (with_plans (update s)
          (mkPlanGraph (graph_owner (plans (update s))) (pending (plans (update s)))
             [] (skipSet (plans (update s)))))
       (foldl (fun w e => (call (operation e) (arguments e) w).2) (world s)
          (rev (alreadyRun (plans (update s)))))).
Proof.
  destruct s as [[ty [own pend done skip] resp plog] w]. simpl. intros Hquiet.
  unfold abortPlans. by apply abortLoop_quiet.
Qed.

(** The abort loop entered with the flag clear, over any record. *)
Lemma abortLoop_outcomes (l : list (Entry Owner Arg)) :
  forall ty own pend skip resp plog (w : World),
    let s := mkState (mkUpdate ty (mkPlanGraph own pend l skip) resp plog) w in
    let r := (abortLoop call (false, s)).1 in
    let sf := (abortLoop call (false, s)).2 in
    (r = Return false /\ alreadyRun (plans (update sf)) = [] \/
     r = Raise (NameError "responseMessages")) /\
    update sf =
      mkUpdate ty (mkPlanGraph own pend (alreadyRun (plans (update sf))) skip) resp plog /\
    exists visited, l = (alreadyRun (plans (update sf)) ++ visited)%list.
Proof.
  induction l as [|e front IH] using rev_ind; intros ty own pend skip resp plog w; cbv zeta.
  - rewrite abortLoop_pass. erewrite abortBody_none by (by apply getNextAbort_nil). simpl.
    split; [by left|]. split; [done|]. by exists [].
  - rewrite abortLoop_pass.
    destruct (call (operation e) (arguments e) w) as [[v|f] w1] eqn:Hcall.
    + erewrite abortBody_returned; [|by apply getNextAbort_snoc|exact Hcall].
      unfold with_plans. simpl.
      destruct (IH ty own pend skip resp plog w1) as (Hr & Hu & visited & Hv).
      split; [done|]. split; [done|].
      exists (visited ++ [e])%list. rewrite app_assoc. by rewrite <- Hv.
    + erewrite abortBody_raised; [|by apply getNextAbort_snoc|exact Hcall].
      unfold with_plans. simpl.
      split; [by right|]. split; [done|]. by exists [e].
Qed.

(** X12: [abortPlans] ends either with [False], the already-run record
    then being empty, or with the [NameError] of its handler, never with
    [True]; in both cases [update.responses], the pending entries and the
    skip set are as before and the already-run record has only lost
    entries from its newest end. *)
Theorem abortPlans_outcomes s :
  let r := (abortPlans call s).1 in
  let sf := (abortPlans call s).2 in
  (r = Return false /\ alreadyRun (plans (update sf)) = [] \/
   r = Raise (NameError "responseMessages")) /\
  responses (update sf) = responses (update s) /\
  pending (plans (update sf)) = pending (plans (update s)) /\
  skipSet (plans (update sf)) = skipSet (plans (update s)) /\
  exists visited,
    alreadyRun (plans (update s)) = (alreadyRun (plans (update sf)) ++ visited)%list.
Proof.
  destruct s as [[ty [own pend done skip] resp plog] w]. cbv zeta. unfold abortPlans.
  destruct (abortLoop_outcomes done ty own pend skip resp plog w) as (Hr & Hu & Hv).
  split; [done|]. rewrite Hu. simpl. done.
Qed.

(** X13: with no pending entry [executePlans] returns [False] and with an
    empty already-run record [abortPlans] returns [False], without calling
    any operation and without changing the update. *)
Theorem engine_nothing_to_do s :
  (pending (plans (update s)) = [] -> executePlans call s = (Return false, s)) /\
  (alreadyRun (plans (update s)) = [] -> abortPlans call s = (Return false, s)).
Proof.
  destruct s as [[ty [own pend done skip] resp plog] w]. simpl. split; intros ->.
  - unfold executePlans. rewrite executeLoop_pass.
    destruct (getNextTodo (mkPlanGraph own [] done skip)) as [[e|] pg] eqn:Hnext.
    + apply getNextTodo_some_pending in Hnext. by apply elem_of_nil in Hnext.
    + erewrite executeBody_none by exact Hnext. unfold with_plans. simpl.
      unfold getNextTodo in Hnext. simpl in Hnext.
      destruct (nextTodo skip []) as [[e|] rest] eqn:Hn; [done|].
      apply nextTodo_none in Hn as ->. by injection Hnext as <-.
  - unfold abortPlans. rewrite abortLoop_pass.
    by erewrite abortBody_none by (by apply getNextAbort_nil).
Qed.

(** X14: [generatePlans] over a list of modules run one after the other:
    the modules of the second list are asked only when those of the first
    have all answered with a falsy value; after a truthy answer or an
    exception the rest is never asked and the update is as the last module
    asked left it. *)
Theorem generatePlans_app (ms1 ms2 : list (PlanModule Owner Arg)) (u : Update Owner Arg) :
  generatePlans (ms1 ++ ms2) u =
    match generatePlans ms1 u with
    | (Return false, u1) => generatePlans ms2 u1
    | stopped => stopped
    end.
Proof.
  revert u. induction ms1 as [|m ms1 IH]; intros u; [done|]. simpl.
  destruct (m u) as [[[|]|ex] u1]; [done|apply IH|done].
Qed.

End EngineRuns.

(** ** router.py, continued *)
Section RouterPlans.
Import PlanGraph UpdateObject.

Variable Owner : Type.
Variable Arg : Type.
Variable STATE_CALL_STOP : Z.
Variable STATE_SAVE_CHUTE : Z.

Implicit Types u : Update Owner Arg.

(** X15: for a factory reset the generator appends two entries behind the
    pending ones, first the removal of all containers at the stop stage,
    then the removal of all chute records at the save stage, and returns
    [None]. *)
Theorem generatePlans_factoryreset u :
  updateType u = "factoryreset" ->
  exists u',
    Router.generatePlans STATE_CALL_STOP STATE_SAVE_CHUTE u = (Return tt, u') /\
    pending (plans u') =
      (pending (plans u)
         ++ [mkEntry STATE_CALL_STOP (graph_owner (plans u))
               "dockerapi.removeAllContainers" [];
             mkEntry STATE_SAVE_CHUTE (graph_owner (plans u))
               "state.removeAllChutes" []])%list.
Proof.
  intros Htype. unfold Router.generatePlans. rewrite Htype. simpl.
  eexists. split; [done|]. simpl. by rewrite <- app_assoc.
Qed.

(** X16: whatever the update type, the generator only appends to the
    pending entries, at most two of them, each owned by the plan graph's
    owner, without arguments and at one of the two stages; the already-run
    record, the skip set, the responses and the update type are untouched.
    An update type other than factoryreset, reboot and shutdown is accepted
    silently: nothing is planned and no error is signalled. *)
Theorem generatePlans_only_appends u :
  let r := (Router.generatePlans STATE_CALL_STOP STATE_SAVE_CHUTE u).1 in
  let u' := (Router.generatePlans STATE_CALL_STOP STATE_SAVE_CHUTE u).2 in
  (exists added,
     pending (plans u') = (pending (plans u) ++ added)%list /\
     length added <= 2 /\
     forall e, e ∈ added ->
       owner e = graph_owner (plans u) /\ arguments e = [] /\
       (stage e = STATE_CALL_STOP \/ stage e = STATE_SAVE_CHUTE)) /\
  alreadyRun (plans u') = alreadyRun (plans u) /\
  skipSet (plans u') = skipSet (plans u) /\
  responses u' = responses u /\
  updateType u' = updateType u /\
  (updateType u <> "factoryreset" -> updateType u <> "reboot" ->
   updateType u <> "shutdown" -> r = Return tt /\ u' = u).
Proof.
  cbv zeta. unfold Router.generatePlans.
  destruct (String.eqb_spec (updateType u) "factoryreset") as [Hf|Hf];
    [|destruct (String.eqb_spec (updateType u) "reboot") as [Hr|Hr];
      [|destruct (String.eqb_spec (updateType u) "shutdown") as [Hs|Hs]]]; simpl.
  - split; [|done]. eexists [_; _]. split; [by rewrite <- app_assoc|].
    split; [done|]. intros e [->|[->|[]%elem_of_nil]%elem_of_cons]%elem_of_cons; simpl; auto.
  - split; [|done]. eexists [_]. split; [done|].
    split; [simpl; lia|]. intros e ->%list_elem_of_singleton; simpl; auto.
  - split; [|done]. exists []. split; [by rewrite app_nil_r|].
    split; [simpl; lia|]. by intros e ?%elem_of_nil.
  - split; [|done]. exists []. split; [by rewrite app_nil_r|].
    split; [simpl; lia|]. by intros e ?%elem_of_nil.
Qed.

(** X17: with the router generator at the head of the module list, a
    shutdown update makes [generatePlans] of the engine leave by the
    generator's [NameError], the update unchanged and the other modules
    never asked; a reboot update gets its entry planned and the other
    modules are asked next. *)
Theorem generatePlans_with_router_module
    (ms : list (ExecutionPlan.PlanModule Owner Arg)) u :
  (updateType u = "shutdown" ->
   ExecutionPlan.generatePlans
     (Router.as_module STATE_CALL_STOP STATE_SAVE_CHUTE :: ms) u =
     (Raise (NameError "uphane"), u)) /\
  (updateType u = "reboot" ->
   ExecutionPlan.generatePlans
     (Router.as_module STATE_CALL_STOP STATE_SAVE_CHUTE :: ms) u =
     ExecutionPlan.generatePlans ms (Router.add u STATE_CALL_STOP "power.reboot")).
Proof.
  split; intros Htype; simpl; unfold Router.as_module, Router.generatePlans;
    by rewrite Htype.
Qed.

End RouterPlans.

(** ** The concrete router, continued *)
Section DemoRuns.
Import PlanGraph UpdateObject ExecutionPlan.

Lemma demo_quiet_operation (e : Entry string string) (w : Demo.World) :
  e ∈ [Demo.entry 10 "net.setConfig"; Demo.entry 20 "net.reload";
       Demo.entry 40 "state.saveChute"] ->
  exists v w', Demo.call (operation e) (arguments e) w = (Returned v, w').
Proof.
  intros He. repeat (apply elem_of_cons in He as [->|He]; [by eexists _, _|]).
  by apply elem_of_nil in He.
Qed.

Lemma executePlans_completes_without_fault_witness :
  exists sf,
    executePlans Demo.call Demo.quiet_state = (Return false, sf) /\
    pending (plans (update sf)) = [] /\
    responses (update sf) = responses (update Demo.quiet_state).
Proof.
  apply (executePlans_completes_without_fault string string Demo.World Demo.call
           Demo.quiet_state).
  intros e He w. by apply demo_quiet_operation.
Defined.

Lemma abortPlans_unwinds_in_reverse_witness :
  abortPlans Demo.call Demo.quiet_abort_state =
    (Return false,
     mkState (mkUpdate "install" (mkPlanGraph "chute" [] [] ∅) [] [])
       ["state.saveChute"; "net.setConfig"]).
Proof.
  apply (abortPlans_unwinds_in_reverse string string Demo.World Demo.call
           Demo.quiet_abort_state).
  intros e He w. apply demo_quiet_operation.
  apply elem_of_cons in He as [->|He]; [left|right; by right].
Defined.

Lemma generatePlans_factoryreset_witness :
  exists u',
    Router.generatePlans 10 90 Demo.factoryreset_update = (Return tt, u') /\
    pending (plans u') =
      [mkEntry 10%Z "router" "dockerapi.removeAllContainers" [];
       mkEntry 90%Z "router" "state.removeAllChutes" []].
Proof.
  apply (generatePlans_factoryreset string string 10 90 Demo.factoryreset_update).
  reflexivity.
Defined.

End DemoRuns.
